(** * Notes worker: the Durable Object of src/index.ts

    A shallow embedding of the [NotesDO] class: the request decoder
    [parseInput], the zod schemas, the SQL statements the handlers send to
    the [notes] table, the five handlers and the router [fetch], followed by
    the properties of the specification. *)

From Stdlib Require Import String Ascii List ZArith Bool Lia Arith.
From Stdlib Require Import Sorting.Sorted Sorting.Permutation.
Import ListNotations.
Local Open Scope string_scope.
Local Open Scope Z_scope.

Set Warnings "-register-all".

(** ** JavaScript values *)

(** A value produced by [JSON.parse].  A number is an integer (exact in
    JavaScript below 2^53) or, given by its literal, a number that is not
    one; an object is the list of its own properties, a name being read at
    its first entry. *)
Inductive json : Type :=
| JNull
| JBool (b : bool)
| JNum (n : Z)
| JFrac (literal : string)
| JStr (s : string)
| JArr (items : list json)
| JObj (fields : list (string * json)).

(** A JavaScript value is a JSON value or [undefined]. *)
Definition value := option json.
Abbreviation undefined := (@None json).

(** An [Error] object: the handlers look at [name] and [message] only. *)
Record js_error := mkError { name : string; message : string }.

Inductive outcome (A : Type) : Type :=
| Ok (a : A)
| Throw (e : js_error).
Arguments Ok {A} a.
Arguments Throw {A} e.

(** [!v] is [negb (truthy v)]. *)
Definition truthy (v : value) : bool :=
  match v with
  | None | Some JNull => false
  | Some (JBool b) => b
  | Some (JNum n) => negb (n =? 0)
  | Some (JFrac _) => true
  | Some (JStr s) => negb (s =? "")%string
  | Some (JArr _) | Some (JObj _) => true
  end.

(** [typeof v === 'object'], which holds of [null] and of arrays too. *)
Definition typeof_object (v : value) : bool :=
  match v with
  | Some JNull | Some (JArr _) | Some (JObj _) => true
  | _ => false
  end.

Definition defined (v : value) : bool :=
  match v with None => false | Some _ => true end.

Fixpoint lookup (k : string) (fields : list (string * json)) : value :=
  match fields with
  | [] => undefined
  | (k', v) :: rest => if (k' =? k)%string then Some v else lookup k rest
  end.

Definition digit_of (c : ascii) : option nat :=
  let n := nat_of_ascii c in
  if ((48 <=? n) && (n <=? 57))%nat then Some (n - 48)%nat else None.

Fixpoint digits (s : string) (acc : nat) : option nat :=
  match s with
  | EmptyString => Some acc
  | String c s' =>
      match digit_of c with
      | Some d => digits s' (10 * acc + d)%nat
      | None => None
      end
  end.

(** The property names that are array indices: decimal, no leading zero. *)
Definition array_index (k : string) : option nat :=
  match k with
  | EmptyString => None
  | String "0"%char EmptyString => Some 0%nat
  | String "0"%char _ => None
  | _ => digits k 0
  end.

(** [v[k]] on a value that is neither [null] nor [undefined] (every read in
    the handlers is behind such a test, or is [?.]).  A number, a boolean
    and a string have none of the names the handlers read; a string is read
    at ["0"] only behind [typeof rawData === 'object']. *)
Definition get_prop (v : value) (k : string) : value :=
  match v with
  | Some (JObj fields) => lookup k fields
  | Some (JArr items) =>
      match array_index k with
      | Some i => nth_error items i
      | None =>
          if (k =? "length")%string
          then Some (JNum (Z.of_nat (List.length items)))
          else undefined
      end
  | _ => undefined
  end.

(** [s.includes(sub)] *)
Definition includes (s sub : string) : bool :=
  match String.index 0 sub s with Some _ => true | None => false end.

(** ** Requests *)

(** A text seen through [JSON.parse]: the decoder does nothing else with the
    [input] parameter and the body than to test the former for emptiness and
    to parse them. *)
Inductive text : Type :=
| Empty                (* the empty string *)
| Encoded (v : json)   (* a text JSON.parse accepts, and its value *)
| Malformed.           (* any other text: JSON.parse throws *)

Definition JSON_parse (t : text) : outcome json :=
  match t with
  | Encoded v => Ok v
  | Empty | Malformed =>
      Throw (mkError "SyntaxError" "Unexpected token in JSON")
  end.

Record Request := mkRequest {
  method : string;
  pathname : string;              (* new URL(request.url).pathname *)
  has_batch : bool;               (* url.searchParams.has("batch") *)
  input_param : option text;      (* url.searchParams.get("input") *)
  content_type : option string;   (* request.headers.get("content-type") *)
  body : text                     (* what request.json() parses *)
}.

Definition empty_payload : json := JObj [("input", JObj [])].

(** The three ways out of the decoder once [rawData] is there. *)
Definition shape_payload (isBatch : bool) (rawData : json) : json :=
  let raw := Some rawData in
  let first :=
    if isBatch && truthy raw && typeof_object raw
    then get_prop raw "0" else undefined in
  match first with
  | Some v => JObj [("input", v)]
  | None =>
      if truthy raw && defined (get_prop raw "input")
      then rawData
      else JObj [("input", rawData)]
  end.

(** The body of the [try] of [parseInput]. *)
Definition parseInput_try (request : Request) : outcome json :=
  let isBatch := has_batch request in
  if (method request =? "GET")%string then
    match input_param request with
    | None | Some Empty => Ok empty_payload
    | Some inputParam =>
        match JSON_parse inputParam with
        | Ok rawData => Ok (shape_payload isBatch rawData)
        | Throw e => Throw e
        end
    end
  else if (method request =? "POST")%string then
    let contentType :=
      match content_type request with Some s => s | None => "" end in
    if includes contentType "application/json" then
      match JSON_parse (body request) with
      | Ok rawData => Ok (shape_payload isBatch rawData)
      | Throw e => Throw e
      end
    else Throw (mkError "Error" ("Unsupported content type: " ++ contentType))
  else Throw (mkError "Error" ("Unsupported method: " ++ method request)).

Definition parseInput (request : Request) : json :=
  match parseInput_try request with
  | Ok data => data
  | Throw _ => empty_payload
  end.

(** ** The zod schemas *)

Record CreateInput := mkCreateInput {
  ci_title : string;
  ci_content : string;
  ci_category : option string;
  ci_published : option bool
}.

Record UpdateInput := mkUpdateInput {
  ui_title : option string;
  ui_content : option string;
  ui_category : option string;
  ui_published : option bool
}.

Definition ZodError : js_error := mkError "ZodError" "Validation failed".

(** [z.string()] and [z.boolean()]: the property must be there with the
    type; with [.optional()] it may be [undefined] (never [null]). *)
Definition z_string (v : value) : outcome string :=
  match v with Some (JStr s) => Ok s | _ => Throw ZodError end.

Definition z_string_optional (v : value) : outcome (option string) :=
  match v with
  | None => Ok None
  | Some (JStr s) => Ok (Some s)
  | _ => Throw ZodError
  end.

Definition z_boolean_optional (v : value) : outcome (option bool) :=
  match v with
  | None => Ok None
  | Some (JBool b) => Ok (Some b)
  | _ => Throw ZodError
  end.

Definition bind_outcome {A B} (o : outcome A) (f : A -> outcome B) : outcome B :=
  match o with Ok a => f a | Throw e => Throw e end.

(** [z.object] accepts plain objects only and drops unknown keys. *)
Definition createNoteSchema_parse (v : value) : outcome CreateInput :=
  match v with
  | Some (JObj _) =>
      bind_outcome (z_string (get_prop v "title")) (fun t =>
      bind_outcome (z_string (get_prop v "content")) (fun c =>
      bind_outcome (z_string_optional (get_prop v "category")) (fun g =>
      bind_outcome (z_boolean_optional (get_prop v "published")) (fun p =>
      Ok (mkCreateInput t c g p)))))
  | _ => Throw ZodError
  end.

Definition updateNoteSchema_parse (v : value) : outcome UpdateInput :=
  match v with
  | Some (JObj _) =>
      bind_outcome (z_string_optional (get_prop v "title")) (fun t =>
      bind_outcome (z_string_optional (get_prop v "content")) (fun c =>
      bind_outcome (z_string_optional (get_prop v "category")) (fun g =>
      bind_outcome (z_boolean_optional (get_prop v "published")) (fun p =>
      Ok (mkUpdateInput t c g p)))))
  | _ => Throw ZodError
  end.

(** ** The notes table *)

(** A row of [notes]; [category] is nullable, [published] is stored as an
    integer. *)
Record Row := mkRow {
  id : string;
  title : string;
  content : string;
  category : option string;
  published : Z;
  createdAt : string;
  updatedAt : string
}.

(** The table, in insertion order. *)
Definition Store := list Row.

Record Note := mkNote {
  note_id : string;
  note_title : string;
  note_content : string;
  note_category : option string;
  note_published : bool;
  note_createdAt : string;
  note_updatedAt : string
}.

Definition mapSqliteRow (row : Row) : Note :=
  mkNote (id row) (title row) (content row)
    (match category row with
     | Some c => if (c =? "")%string then None else Some c
     | None => None
     end)
    (published row =? 1)
    (createdAt row) (updatedAt row).

(** [PRIMARY KEY] on [id] and [UNIQUE] on [title]. *)
Definition store_ok (st : Store) : Prop :=
  NoDup (map id st) /\ NoDup (map title st).

(** ** Statements run against the table *)

(** A computation of a handler: it reads and writes the table and may
    throw. *)
Definition DO (A : Type) : Type := Store -> outcome A * Store.

Definition ret {A} (a : A) : DO A := fun st => (Ok a, st).
Definition throw {A} (e : js_error) : DO A := fun st => (Throw e, st).
Definition bind {A B} (m : DO A) (f : A -> DO B) : DO B :=
  fun st =>
    match m st with
    | (Ok a, st') => f a st'
    | (Throw e, st') => (Throw e, st')
    end.
Definition lift {A} (o : outcome A) : DO A := fun st => (o, st).
(** [try { m } catch (e) { h e }] *)
Definition try_catch {A} (m : DO A) (h : js_error -> DO A) : DO A :=
  fun st =>
    match m st with
    | (Ok a, st') => (Ok a, st')
    | (Throw e, st') => h e st'
    end.

Declare Scope do_scope.
Delimit Scope do_scope with DO.
Notation "x <- m ;; k" := (bind m (fun x => k))
  (at level 61, m at next level, right associativity) : do_scope.
Notation "m ;;; k" := (bind m (fun _ => k))
  (at level 61, right associativity) : do_scope.
Local Open Scope do_scope.

(** [error.message && error.message.includes("UNIQUE constraint failed")] *)
Definition is_unique_failure (e : js_error) : bool :=
  negb (message e =? "")%string
  && includes (message e) "UNIQUE constraint failed".

(** A failure that is neither zod's nor that of a constraint. *)
Definition other_failure (e : js_error) : Prop :=
  (name e =? "ZodError")%string = false /\ is_unique_failure e = false.

(** What lies outside the handlers' types and is left open: the text a
    value other than a string is taken for when it is bound to [id = ?], or
    [None] when the storage refuses the binding; and the rows of the page
    statement when [page], [limit] or their product is not an integer that
    JavaScript computes exactly (the offset is then JavaScript's rounding or
    coercion, and the statement the storage's reading of what it is given),
    or [None] when the storage refuses.  What the storage throws when it
    refuses is its own error, with its own message: no validation failure
    and no constraint failure. *)
Class SqlBinding := {
  bind_other : json -> option string;
  page_other : json -> json -> Store -> option (list Row);
  bind_refusal : json -> js_error;
  page_refusal : json -> json -> Store -> js_error;
  bind_refusal_other : forall v, other_failure (bind_refusal v);
  page_refusal_other : forall page limit st,
      other_failure (page_refusal page limit st)
}.

Definition unique_failed (column : string) : js_error :=
  mkError "Error" ("UNIQUE constraint failed: notes." ++ column).

(** [cursor.one()]: exactly one row, or it throws. *)
Definition one {A} (rows : list A) : DO A :=
  match rows with
  | [r] => ret r
  | _ => throw (mkError "Error" "Expected exactly one result from SQL query")
  end.

Definition has_title (t : string) (r : Row) : bool := (title r =? t)%string.
Definition has_id (k : string) (r : Row) : bool := (id r =? k)%string.

Section Statements.
Context `{SqlBinding}.

(** The text a value bound to [id = ?] is compared as. *)
Definition key_of (v : json) : option string :=
  match v with
  | JStr s => Some s
  | _ => bind_other v
  end.

Definition bind_text (v : json) : DO string :=
  match key_of v with
  | Some s => ret s
  | None => throw (bind_refusal v)
  end.

(** [SELECT COUNT( * ) as count FROM notes WHERE title = ?] *)
Definition sql_count_title (t : string) : DO Z :=
  fun st => (Ok (Z.of_nat (List.length (filter (has_title t) st))), st).

(** [SELECT * FROM notes WHERE id = ?] *)
Definition sql_select_by_id (noteId : json) : DO (list Row) :=
  k <- bind_text noteId ;;
  fun st => (Ok (filter (has_id k) st), st).

(** [INSERT INTO notes (...) VALUES (...)]: one statement, all or nothing. *)
Definition sql_insert (row : Row) : DO unit :=
  fun st =>
    if existsb (has_id (id row)) st then (Throw (unique_failed "id"), st)
    else if existsb (has_title (title row)) st
    then (Throw (unique_failed "title"), st)
    else (Ok tt, (st ++ [row])%list).

Definition set_fields (u : UpdateInput) (now : string) (r : Row) : Row :=
  mkRow (id r)
    (match ui_title u with Some t => t | None => title r end)
    (match ui_content u with Some c => c | None => content r end)
    (match ui_category u with Some g => Some g | None => category r end)
    (match ui_published u with
     | Some p => if p then 1 else 0
     | None => published r
     end)
    (createdAt r)
    now.

Definition set_where (k : string) (u : UpdateInput) (now : string) (r : Row)
  : Row :=
  if has_id k r then set_fields u now r else r.

(** [UPDATE notes SET ..., updatedAt = ? WHERE id = ?]: the statement is
    undone as a whole when a row it writes takes the title of a row it
    leaves alone. *)
Definition sql_update (u : UpdateInput) (now : string) (noteId : json)
  : DO unit :=
  k <- bind_text noteId ;;
  fun st =>
    let clash :=
      match ui_title u with
      | Some t =>
          existsb (has_id k) st
          && existsb (fun r => negb (has_id k r) && has_title t r) st
      | None => false
      end in
    if clash then (Throw (unique_failed "title"), st)
    else (Ok tt, map (set_where k u now) st).

(** [DELETE FROM notes WHERE id = ?] *)
Definition sql_delete (noteId : json) : DO unit :=
  k <- bind_text noteId ;;
  fun st => (Ok tt, filter (fun r => negb (has_id k r)) st).

(** [ORDER BY createdAt DESC]: text compared byte by byte; rows with equal
    keys stay in table order.  [insert_desc r rows] puts [r], a row that
    precedes those of [rows] in the table, before the first row that is not
    newer than it. *)
Fixpoint insert_desc (r : Row) (rows : list Row) : list Row :=
  match rows with
  | [] => [r]
  | x :: rest =>
      if String.leb (createdAt x) (createdAt r)
      then r :: x :: rest
      else x :: insert_desc r rest
  end.

Definition order_by_createdAt_desc (rows : list Row) : list Row :=
  fold_right insert_desc [] rows.

(** The integers of the storage: signed, 64 bits. *)
Definition int64 (n : Z) : bool :=
  (-9223372036854775808 <=? n) && (n <=? 9223372036854775807).

(** The rows from [offset] on, [limit] of them at most: a negative limit is
    no limit, a negative offset is none. *)
Definition rows_from (limit offset : Z) (rows : list Row) : list Row :=
  let rest := skipn (Z.to_nat offset) rows in
  if limit <? 0 then rest else firstn (Z.to_nat limit) rest.

(** [LIMIT ? OFFSET ?]: the storage refuses a number that is not one of its
    integers. *)
Definition limit_offset (limit offset : Z) (rows : list Row)
  : option (list Row) :=
  if int64 limit && int64 offset then Some (rows_from limit offset rows)
  else None.

End Statements.

(** ** Responses *)

(** The object a handler hands to [formatTRPCResponse]. *)
Inductive payload : Type :=
| Hello (msg : string)                       (* { message } *)
| Created (note : Note)                      (* { status, data: { note } } *)
| Single (note : Note)                       (* { status, note } *)
| Page (results : Z) (notes : list Note)     (* { status, results, notes } *)
| Deleted.                                   (* { status } *)

Inductive envelope : Type :=
| Result (data : payload)                    (* { result: { data } } *)
| Error (msg code : string).                 (* { error: { message, code } } *)

(** A response: JSON with a status (in batch mode the envelope is the one
    element of an array), the answer to a preflight, or the plain 404. *)
Inductive Response : Type :=
| Reply (status : Z) (isBatch : bool) (e : envelope)
| Preflight
| NotFound.

Definition formatTRPCResponse (result : payload) (isBatch : bool) : Response :=
  Reply 200 isBatch (Result result).

Definition formatTRPCErrorResponse (code msg : string) (status : Z)
  (isBatch : bool) : Response :=
  Reply status isBatch (Error msg code).

(** [a || b] *)
Definition js_or (a : value) (b : json) : json :=
  match a with
  | Some v => if truthy a then v else b
  | None => b
  end.

(** [error.message || fallback] *)
Definition message_or (e : js_error) (fallback : string) : string :=
  if (message e =? "")%string then fallback else message e.

Definition conflict (isBatch : bool) : Response :=
  formatTRPCErrorResponse "CONFLICT" "Note with that title already exists"
    409 isBatch.

Definition method_not_supported (isBatch : bool) : Response :=
  formatTRPCErrorResponse "METHOD_NOT_SUPPORTED" "Method not allowed"
    405 isBatch.

Definition missing_noteId (isBatch : bool) : Response :=
  formatTRPCErrorResponse "BAD_REQUEST"
    "Invalid request format: missing noteId" 400 isBatch.

Definition not_found (isBatch : bool) : Response :=
  formatTRPCErrorResponse "NOT_FOUND" "Note with that ID not found"
    404 isBatch.

Definition internal_error (e : js_error) (isBatch : bool) : Response :=
  formatTRPCErrorResponse "INTERNAL_SERVER_ERROR"
    (message_or e "An unexpected error occurred") 500 isBatch.

(** The [catch] of [createNote] and of [updateNote]. *)
Definition catch_write (isBatch : bool) (e : js_error) : Response :=
  if (name e =? "ZodError")%string then
    formatTRPCErrorResponse "BAD_REQUEST" "Validation error" 400 isBatch
  else if is_unique_failure e then conflict isBatch
  else internal_error e isBatch.

(** The [catch] of [getNotes]. *)
Definition catch_getNotes (isBatch : bool) (e : js_error) : Response :=
  if (name e =? "ZodError")%string then
    formatTRPCErrorResponse "BAD_REQUEST" "Validation error" 400 isBatch
  else internal_error e isBatch.

(** A handler: its [try] block run on the table, its [catch] applied to
    what the block throws. *)
Definition handler (m : DO Response) (h : js_error -> Response)
  : Store -> Response * Store :=
  fun st =>
    match m st with
    | (Ok r, st') => (r, st')
    | (Throw e, st') => (h e, st')
    end.

(** ** The handlers *)

Section Handlers.
Context `{SqlBinding}.

Definition titleExists (t : string) : DO bool :=
  count <- sql_count_title t ;;
  ret (0 <? count).

(** The row [createNote] inserts; [uuid] is [crypto.randomUUID()] and [now]
    is [new Date().toISOString()]. *)
Definition new_row (uuid now : string) (input : CreateInput) : Row :=
  mkRow uuid (ci_title input) (ci_content input)
    (match ci_category input with
     | Some c => if (c =? "")%string then None else Some c
     | None => None
     end)
    (match ci_published input with Some true => 1 | _ => 0 end)
    now now.

(** The inner [try] of [createNote]: the [INSERT], and whether its [catch]
    took a refusal of the table for a conflict. *)
Definition insert_guarded (row : Row) : DO bool :=
  try_catch
    (sql_insert row ;;; ret false)
    (fun dbError =>
       if is_unique_failure dbError then ret true else throw dbError).

Definition createNote_try (uuid now : string) (request : Request)
  : DO Response :=
  let isBatch := has_batch request in
  if negb (method request =? "POST")%string then
    ret (method_not_supported isBatch)
  else
    let data := parseInput request in
    let input := get_prop (Some data) "input" in
    if negb (truthy input) || negb (typeof_object input) then
      ret (formatTRPCErrorResponse "BAD_REQUEST" "Invalid request format"
             400 isBatch)
    else
      input <- lift (createNoteSchema_parse input) ;;
      taken <- titleExists (ci_title input) ;;
      if taken then ret (conflict isBatch)
      else
        refused <- insert_guarded (new_row uuid now input) ;;
        if refused then ret (conflict isBatch)
        else
          result <- sql_select_by_id (JStr uuid) ;;
          row <- one result ;;
          ret (formatTRPCResponse (Created (mapSqliteRow row)) isBatch).

Definition createNote (uuid now : string) (request : Request)
  : Store -> Response * Store :=
  handler (createNote_try uuid now request) (catch_write (has_batch request)).

(** [updateNote] writes the fields of [updateData] that are defined; once
    the schema accepted [updateData] these are the fields of what it
    returns, [u] below. *)
Definition updateNote_try (now : string) (request : Request) : DO Response :=
  let isBatch := has_batch request in
  if negb (method request =? "POST")%string then
    ret (method_not_supported isBatch)
  else
    let data := parseInput request in
    let input := get_prop (Some data) "input" in
    let params := get_prop input "params" in
    if negb (truthy input) || negb (truthy params)
       || negb (truthy (get_prop params "noteId"))
    then ret (missing_noteId isBatch)
    else
      let noteId := js_or (get_prop params "noteId") JNull in
      let updateData := js_or (get_prop input "body") (JObj []) in
      u <- lift (updateNoteSchema_parse (Some updateData)) ;;
      checkResult <- sql_select_by_id noteId ;;
      if (List.length checkResult =? 0)%nat then ret (not_found isBatch)
      else
        taken <-
          match ui_title u with
          | Some t =>
              currentNoteResult <- sql_select_by_id noteId ;;
              current <- one currentNoteResult ;;
              if negb (t =? title current)%string then titleExists t
              else ret false
          | None => ret false
          end ;;
        if taken then ret (conflict isBatch)
        else
          sql_update u now noteId ;;;
          result <- sql_select_by_id noteId ;;
          row <- one result ;;
          ret (formatTRPCResponse (Single (mapSqliteRow row)) isBatch).

Definition updateNote (now : string) (request : Request)
  : Store -> Response * Store :=
  handler (updateNote_try now request) (catch_write (has_batch request)).

Definition getNote_try (request : Request) : DO Response :=
  let isBatch := has_batch request in
  let data := parseInput request in
  let input := get_prop (Some data) "input" in
  if negb (truthy input) || negb (truthy (get_prop input "noteId")) then
    ret (missing_noteId isBatch)
  else
    let noteId := js_or (get_prop input "noteId") JNull in
    notes <- sql_select_by_id noteId ;;
    match notes with
    | [] => ret (not_found isBatch)
    | row :: _ => ret (formatTRPCResponse (Single (mapSqliteRow row)) isBatch)
    end.

Definition getNote (request : Request) : Store -> Response * Store :=
  handler (getNote_try request)
    (fun e => internal_error e (has_batch request)).

(** [Number.MAX_SAFE_INTEGER], 2^53 - 1: up to it, in absolute value,
    JavaScript's numbers are the integers and its arithmetic is exact. *)
Definition max_safe_integer : Z := 9007199254740991.

Definition safe_integer (n : Z) : bool :=
  (- max_safe_integer <=? n) && (n <=? max_safe_integer).

(** [(page - 1) * limit], where JavaScript computes it exactly: on safe
    integers whose product is one. *)
Definition js_offset (page limit : json) : option Z :=
  match page, limit with
  | JNum p, JNum l =>
      if safe_integer p && safe_integer l && safe_integer ((p - 1) * l)
      then Some ((p - 1) * l)
      else None
  | _, _ => None
  end.

(** [SELECT * FROM notes ORDER BY createdAt DESC LIMIT ? OFFSET ?] *)
Definition sql_select_page (page limit : json) : DO (list Row) :=
  fun st =>
    match limit, js_offset page limit with
    | JNum l, Some offset =>
        match limit_offset l offset (order_by_createdAt_desc st) with
        | Some rows => (Ok rows, st)
        | None => (Throw (page_refusal page limit st), st)
        end
    | _, _ =>
        match page_other page limit st with
        | Some rows => (Ok rows, st)
        | None => (Throw (page_refusal page limit st), st)
        end
    end.

Definition getNotes_try (request : Request) : DO Response :=
  let isBatch := has_batch request in
  let data := parseInput request in
  let input := get_prop (Some data) "input" in
  let page := js_or (get_prop input "page") (JNum 1) in
  let limit := js_or (get_prop input "limit") (JNum 10) in
  result <- sql_select_page page limit ;;
  let notes := map mapSqliteRow result in
  ret (formatTRPCResponse (Page (Z.of_nat (List.length notes)) notes) isBatch).

Definition getNotes (request : Request) : Store -> Response * Store :=
  handler (getNotes_try request) (catch_getNotes (has_batch request)).

Definition deleteNote_try (request : Request) : DO Response :=
  let isBatch := has_batch request in
  if negb (method request =? "POST")%string then
    ret (method_not_supported isBatch)
  else
    let data := parseInput request in
    let input := get_prop (Some data) "input" in
    if negb (truthy input) || negb (truthy (get_prop input "noteId")) then
      ret (missing_noteId isBatch)
    else
      let noteId := js_or (get_prop input "noteId") JNull in
      checkResult <- sql_select_by_id noteId ;;
      if (List.length checkResult =? 0)%nat then ret (not_found isBatch)
      else
        sql_delete noteId ;;;
        ret (formatTRPCResponse Deleted isBatch).

Definition deleteNote (request : Request) : Store -> Response * Store :=
  handler (deleteNote_try request)
    (fun e => internal_error e (has_batch request)).

(** [NotesDO.fetch]: the handlers catch whatever their bodies throw, so the
    router's own [catch] has nothing to do. *)
Definition fetch (uuid now : string) (request : Request)
  : Store -> Response * Store :=
  fun st =>
    if (method request =? "OPTIONS")%string then (Preflight, st)
    else
      let path := pathname request in
      let isBatch := has_batch request in
      if (path =? "/api/trpc/createNote")%string then
        createNote uuid now request st
      else if (path =? "/api/trpc/updateNote")%string then
        updateNote now request st
      else if (path =? "/api/trpc/deleteNote")%string then
        deleteNote request st
      else if (path =? "/api/trpc/getNote")%string then
        getNote request st
      else if (path =? "/api/trpc/getNotes")%string then
        getNotes request st
      else if (path =? "/api/trpc/getHello")%string then
        (formatTRPCResponse (Hello "Welcome to Full-Stack tRPC CRUD App")
           isBatch, st)
      else (NotFound, st).

(** The tables the object can hold: the empty one of [initializeDB], and
    what a request leaves behind. *)
Inductive reachable : Store -> Prop :=
| reach_init : reachable []
| reach_fetch uuid now request st :
    reachable st -> reachable (snd (fetch uuid now request st))
| reach_create uuid now request st :
    reachable st -> reachable (snd (createNote uuid now request st))
| reach_update now request st :
    reachable st -> reachable (snd (updateNote now request st))
| reach_delete request st :
    reachable st -> reachable (snd (deleteNote request st)).

End Handlers.

(** ** Reading responses, and the specification's vocabulary *)

Definition error_code (r : Response) : option string :=
  match r with
  | Reply _ _ (Error _ code) => Some code
  | _ => None
  end.

(** [data.input] of the decoded request. *)
Definition input_of (request : Request) : value :=
  get_prop (Some (parseInput request)) "input".

(** [data.input.noteId], as [getNote] and [deleteNote] read it. *)
Definition noteId_of (request : Request) : value :=
  get_prop (input_of request) "noteId".

(** [data.input.params.noteId] and [data.input.body || {}], as [updateNote]
    reads them. *)
Definition params_noteId_of (request : Request) : value :=
  get_prop (get_prop (input_of request) "params") "noteId".

Definition updateData_of (request : Request) : json :=
  js_or (get_prop (input_of request) "body") (JObj []).

(** The declared content type of a request, [""] when there is none. *)
Definition declared_type (request : Request) : string :=
  match content_type request with Some s => s | None => "" end.

(** The ways the decoder fails: an [input] parameter or a body that is not
    JSON, a body not declared as JSON, a method that is neither GET nor
    POST. *)
Inductive decode_failure (request : Request) : Prop :=
| bad_input_param t :
    method request = "GET" -> input_param request = Some t ->
    (forall v, t <> Encoded v) -> decode_failure request
| bad_content_type :
    method request = "POST" ->
    includes (declared_type request) "application/json" = false ->
    decode_failure request
| bad_body :
    method request = "POST" -> (forall v, body request <> Encoded v) ->
    decode_failure request
| bad_method :
    method request <> "GET" -> method request <> "POST" ->
    decode_failure request.

(** The decoder got [rawData] out of the request. *)
Definition decoded (request : Request) (rawData : json) : Prop :=
  (method request = "GET" /\ input_param request = Some (Encoded rawData))
  \/ (method request = "POST"
      /\ includes (declared_type request) "application/json" = true
      /\ body request = Encoded rawData).

(** Batch mode is on and [rawData] is an object with a defined key ["0"]. *)
Definition batch_envelope (isBatch : bool) (rawData : json) : bool :=
  isBatch && typeof_object (Some rawData)
  && defined (get_prop (Some rawData) "0").

(** What an update may do to a row: [id] and [createdAt] stay, [updatedAt]
    becomes [now], and each of the four fields stays unless the payload
    holds it, in which case it takes the payload's value. *)
Definition updated_by (payload : json) (now : string) (old new : Row) : Prop :=
  id new = id old /\ createdAt new = createdAt old /\ updatedAt new = now
  /\ match get_prop (Some payload) "title" with
     | None => title new = title old
     | Some v => v = JStr (title new)
     end
  /\ match get_prop (Some payload) "content" with
     | None => content new = content old
     | Some v => v = JStr (content new)
     end
  /\ match get_prop (Some payload) "category" with
     | None => category new = category old
     | Some v => exists c, v = JStr c /\ category new = Some c
     end
  /\ match get_prop (Some payload) "published" with
     | None => published new = published old
     | Some v => exists b, v = JBool b
                          /\ published new = (if b then 1 else 0)
     end.

(** The error codes of a request the handlers turn down. *)
Definition client_errors : list string :=
  ["BAD_REQUEST"; "CONFLICT"; "NOT_FOUND"; "METHOD_NOT_SUPPORTED"].

(** Sample data. *)
Definition post (path : string) (isBatch : bool) (v : json) : Request :=
  mkRequest "POST" path isBatch None (Some "application/json") (Encoded v).

Definition get (path : string) (isBatch : bool) (v : json) : Request :=
  mkRequest "GET" path isBatch (Some (Encoded v)) None Empty.

Definition create_A : Request :=
  post "/api/trpc/createNote" false
    (JObj [("title", JStr "A"); ("content", JStr "x")]).

Definition input_A : CreateInput := mkCreateInput "A" "x" None None.

Definition t1 : string := "2024-05-01T10:00:00.000Z".
Definition t2 : string := "2024-05-02T10:00:00.000Z".
Definition t3 : string := "2024-05-03T10:00:00.000Z".

Definition row_A : Row := mkRow "id-1" "A" "x" None 0 t1 t1.
Definition row_B : Row := mkRow "id-2" "B" "y" (Some "work") 1 t2 t2.

Definition get_id_1 : Request :=
  get "/api/trpc/getNote" false (JObj [("noteId", JStr "id-1")]).

Definition update_of (noteId : string) (body : json) : Request :=
  post "/api/trpc/updateNote" false
    (JObj [("params", JObj [("noteId", JStr noteId)]); ("body", body)]).

(** The title an update asks for belongs to another note. *)
Definition title_taken (u : UpdateInput) (row : Row) (st : Store) : bool :=
  match ui_title u with
  | Some t => negb (t =? title row)%string && existsb (has_title t) st
  | None => false
  end.

(** The effective page and limit of a [getNotes] request. *)
Definition page_of (request : Request) : json :=
  js_or (get_prop (input_of request) "page") (JNum 1).

Definition limit_of (request : Request) : json :=
  js_or (get_prop (input_of request) "limit") (JNum 10).

(** The slice [[lo, hi)] of a list. *)
Definition slice {A} (lo hi : Z) (l : list A) : list A :=
  firstn (Z.to_nat (hi - lo)) (skipn (Z.to_nat lo) l).

(** The rows created at [t]. *)
Definition created_at (t : string) (r : Row) : bool :=
  (createdAt r =? t)%string.

(** Newest first. *)
Definition newer_or_same (a b : Row) : Prop :=
  String.leb (createdAt b) (createdAt a) = true.

(** The error of a storage that was handed what it cannot take. *)
Definition datatype_mismatch : js_error :=
  mkError "Error" "datatype mismatch: SQLITE_MISMATCH".

(** A storage that refuses every binding it was not written for. *)
Definition strict_binding : SqlBinding :=
  {| bind_other := fun _ => None;
     page_other := fun _ _ _ => None;
     bind_refusal := fun _ => datatype_mismatch;
     page_refusal := fun _ _ _ => datatype_mismatch;
     bind_refusal_other := fun _ => conj eq_refl eq_refl;
     page_refusal_other := fun _ _ _ => conj eq_refl eq_refl |}.

Definition newer_note (a b : Note) : Prop :=
  String.leb (note_createdAt b) (note_createdAt a) = true.

(** The pagination property at one request: [getNotes] answers the notes of
    the slice [[(P-1)*L, P*L)] of the table ordered newest first, at most
    [L] of them, newest first, with their number as [results]. *)
Definition pagination_holds_at `{SqlBinding} (st : Store) (request : Request)
  (L P : Z) : Prop :=
  exists notes,
    getNotes request st
    = (formatTRPCResponse (Page (Z.of_nat (List.length notes)) notes)
         (has_batch request), st)
    /\ Z.of_nat (List.length notes) <= L
    /\ StronglySorted newer_note notes
    /\ notes = map mapSqliteRow
                 (slice ((P - 1) * L) (P * L) (order_by_createdAt_desc st)).

Definition list_notes (input : json) : Request :=
  get "/api/trpc/getNotes" false input.

(** Requests served one after the other, each with the id and the time the
    platform would hand to it. *)
Fixpoint serve `{SqlBinding} (calls : list (string * string * Request))
  (st : Store) : list Response * Store :=
  match calls with
  | [] => ([], st)
  | (uuid, now, request) :: rest =>
      let (r, st1) := fetch uuid now request st in
      let (rs, st2) := serve rest st1 in
      (r :: rs, st2)
  end.

Definition by_id (path noteId : string) : Request :=
  post path false (JObj [("noteId", JStr noteId)]).

(** The scenario of the specification. *)
Definition scenario : list (string * string * Request) :=
  [ ("id-1", t1, create_A);
    ("id-2", t2,
     post "/api/trpc/createNote" false
       (JObj [("title", JStr "A"); ("content", JStr "y")]));
    ("", t2, update_of "id-1" (JObj [("title", JStr "B")]));
    ("id-3", t3,
     post "/api/trpc/createNote" false
       (JObj [("title", JStr "A"); ("content", JStr "z")]));
    ("", t3,
     get "/api/trpc/getNotes" false
       (JObj [("limit", JNum 1); ("page", JNum 1)]));
    ("", t3, by_id "/api/trpc/deleteNote" "id-1");
    ("", t3, by_id "/api/trpc/getNote" "id-1") ].

Definition malformed_create : Request :=
  mkRequest "POST" "/api/trpc/createNote" false None
    (Some "application/json") Malformed.

Definition batched_create : Request :=
  post "/api/trpc/createNote" true
    (JObj [("0", JObj [("title", JStr "A"); ("content", JStr "x")])]).

Definition put_getNote : Request :=
  mkRequest "PUT" "/api/trpc/getNote" false
    (Some (Encoded (JObj [("noteId", JStr "id-1")])))
    (Some "application/json")
    (Encoded (JObj [("noteId", JStr "id-1")])).

Definition row_A2 : Row := mkRow "id-2" "A2" "x" None 0 t1 t1.

Definition huge_page : Request :=
  list_notes (JObj [("limit", JNum 3000000000); ("page", JNum 4000000000)]).

Definition negative_limit : Request :=
  list_notes (JObj [("limit", JNum (-1))]).

Definition text_limit : Request :=
  list_notes (JObj [("limit", JStr "abc")]).

Definition second_page_of_one : Request :=
  list_notes (JObj [("limit", JNum 1); ("page", JNum 2)]).

(** ** The worker *)

(** What the worker's [fetch] (the default export) returns: the answer of
    the static assets, which it only passes on, or a response it or the
    object made. *)
Inductive WorkerResponse : Type :=
| Asset
| Answer (r : Response).

(** [s.startsWith(p)] *)
Definition startsWith (s p : string) : bool := String.prefix p s.

(** The default export's [fetch]; the object it calls is the one named
    ["default"], whose table is [st]. *)
Definition worker_fetch `{SqlBinding} (uuid now : string) (request : Request)
  (st : Store) : WorkerResponse * Store :=
  if (method request =? "OPTIONS")%string then (Answer Preflight, st)
  else
    let path := pathname request in
    if (path =? "/")%string || negb (startsWith path "/api") then (Asset, st)
    else if startsWith path "/api/trpc" then
      let (r, st') := fetch uuid now request st in (Answer r, st')
    else (Answer NotFound, st).

(** The paths of the three handlers that write. *)
Definition write_paths : list string :=
  ["/api/trpc/createNote"; "/api/trpc/updateNote"; "/api/trpc/deleteNote"].

(** ** Shapes of answers and of changes *)

(** The status each error code goes with. *)
Definition taxonomy : list (string * Z) :=
  [("BAD_REQUEST", 400); ("CONFLICT", 409); ("NOT_FOUND", 404);
   ("METHOD_NOT_SUPPORTED", 405); ("INTERNAL_SERVER_ERROR", 500)].

(** A response in the envelope: a result with status 200 or an error whose
    status is that of its code, batched as the request asks. *)
Definition well_coded (isBatch : bool) (r : Response) : Prop :=
  match r with
  | Reply status b (Result _) => status = 200 /\ b = isBatch
  | Reply status b (Error _ code) => In (code, status) taxonomy /\ b = isBatch
  | Preflight | NotFound => False
  end.

(** The paths the object's router knows. *)
Definition operation_paths : list string :=
  ["/api/trpc/createNote"; "/api/trpc/updateNote"; "/api/trpc/deleteNote";
   "/api/trpc/getNote"; "/api/trpc/getNotes"; "/api/trpc/getHello"].

(** One request's change of the table: none, a row appended, the rows of
    an id rewritten, or the rows of an id removed. *)
Inductive table_step `{SqlBinding} (uuid now : string) (st : Store)
  : Store -> Prop :=
| step_none : table_step uuid now st st
| step_insert input :
    existsb (has_id uuid) st = false ->
    existsb (has_title (ci_title input)) st = false ->
    table_step uuid now st (st ++ [new_row uuid now input])%list
| step_update k u :
    table_step uuid now st (map (set_where k u now) st)
| step_delete k :
    table_step uuid now st (filter (fun r => negb (has_id k r)) st).

(** A stored flag is one of the two integers of a boolean. *)
Definition flag_ok (r : Row) : Prop := published r = 0 \/ published r = 1.

(** More sample data. *)
Definition delete_id_1 : Request := by_id "/api/trpc/deleteNote" "id-1".

Definition create_B_again : Request :=
  post "/api/trpc/createNote" false
    (JObj [("title", JStr "B"); ("content", JStr "z")]).

Definition wrapped_A : Request :=
  post "/api/trpc/createNote" false
    (JObj [("input", JObj [("title", JStr "A"); ("content", JStr "x")])]).

Definition first_page_of_one : Request :=
  list_notes (JObj [("limit", JNum 1); ("page", JNum 1)]).

Definition third_page_of_one : Request :=
  list_notes (JObj [("limit", JNum 1); ("page", JNum 3)]).

Definition create_null : Request :=
  post "/api/trpc/createNote" false (JObj [("input", JNull)]).

(** ** Facts about the statements *)

Section StatementFacts.
Context `{SqlBinding}.

Lemma existsb_has_id k st :
  existsb (has_id k) st = true <-> In k (map id st).
Proof.
  induction st as [|r st IH]; simpl.
  - split; [discriminate | tauto].
  - unfold has_id at 1. rewrite orb_true_iff, IH, String.eqb_eq. tauto.
Qed.

Lemma existsb_has_title t st :
  existsb (has_title t) st = true <-> In t (map title st).
Proof.
  induction st as [|r st IH]; simpl.
  - split; [discriminate | tauto].
  - unfold has_title at 1. rewrite orb_true_iff, IH, String.eqb_eq. tauto.
Qed.

Lemma filter_has_id_nil k st :
  ~ In k (map id st) -> filter (has_id k) st = [].
Proof.
  induction st as [|r st IH]; simpl; intros Hn; [reflexivity|].
  unfold has_id at 1.
  destruct (String.eqb_spec (id r) k) as [E|Hne]; [tauto|].
  apply IH. tauto.
Qed.

Lemma filter_has_id_one st r :
  NoDup (map id st) -> In r st -> filter (has_id (id r)) st = [r].
Proof.
  induction st as [|x st IH]; simpl; intros Hnd Hin; [tauto|].
  inversion Hnd as [|? ? Hx Hnd']; subst.
  unfold has_id at 1.
  destruct Hin as [->|Hin].
  - rewrite String.eqb_refl. f_equal. now apply filter_has_id_nil.
  - destruct (String.eqb_spec (id x) (id r)) as [E|_].
    + exfalso. apply Hx. rewrite E. now apply in_map.
    + now apply IH.
Qed.

Lemma unique_failed_caught column :
  is_unique_failure (unique_failed column) = true.
Proof. reflexivity. Qed.

(** Both [catch]es answer the 500 to a failure that is neither zod's nor
    a constraint's. *)
Lemma catch_write_other b e :
  other_failure e -> catch_write b e = internal_error e b.
Proof. intros [Hz Hu]. unfold catch_write. now rewrite Hz, Hu. Qed.

Lemma catch_getNotes_other b e :
  other_failure e -> catch_getNotes b e = internal_error e b.
Proof. intros [Hz _]. unfold catch_getNotes. now rewrite Hz. Qed.

(** [INSERT] keeps the two constraints of the table. *)
Lemma sql_insert_inv row st st' :
  sql_insert row st = (Ok tt, st') ->
  st' = (st ++ [row])%list
  /\ ~ In (id row) (map id st) /\ ~ In (title row) (map title st).
Proof.
  unfold sql_insert.
  destruct (existsb (has_id (id row)) st) eqn:Ei; [discriminate|].
  destruct (existsb (has_title (title row)) st) eqn:Et; [discriminate|].
  intros [= <-]. split; [reflexivity|].
  rewrite <- existsb_has_id, <- existsb_has_title, Ei, Et.
  split; discriminate.
Qed.

Lemma NoDup_snoc {A} (l : list A) (a : A) :
  NoDup l -> ~ In a l -> NoDup (l ++ [a]).
Proof.
  intros Hnd Hn. apply NoDup_app; [assumption| |].
  - constructor; [intros []|constructor].
  - intros x Hx [<-|[]]. contradiction.
Qed.

Lemma NoDup_map_inj {A B} (f : A -> B) (l : list A) (a b : A) :
  NoDup (map f l) -> In a l -> In b l -> f a = f b -> a = b.
Proof.
  induction l as [|x l IH]; simpl; intros Hnd Ha Hb E; [easy|].
  inversion Hnd as [|? ? Hx Hnd']; subst.
  destruct Ha as [->|Ha], Hb as [->|Hb]; auto.
  - exfalso. apply Hx. rewrite E. now apply in_map.
  - exfalso. apply Hx. rewrite <- E. now apply in_map.
Qed.

Lemma sql_insert_ok row st st' :
  store_ok st -> sql_insert row st = (Ok tt, st') -> store_ok st'.
Proof.
  intros [Hi Ht] Hins. apply sql_insert_inv in Hins as (-> & Hni & Hnt).
  split; rewrite map_app; simpl; now apply NoDup_snoc.
Qed.

Lemma sql_insert_throw row st e st' :
  sql_insert row st = (Throw e, st') ->
  st' = st /\ is_unique_failure e = true.
Proof.
  unfold sql_insert.
  destruct (existsb (has_id (id row)) st);
    [|destruct (existsb (has_title (title row)) st)];
    intros [= <- <-]; split; reflexivity.
Qed.

Lemma set_where_id k u now r : id (set_where k u now r) = id r.
Proof. unfold set_where. now destruct (has_id k r). Qed.

Lemma map_set_where_id k u now st :
  map id (map (set_where k u now) st) = map id st.
Proof.
  rewrite map_map. apply map_ext. intros r. apply set_where_id.
Qed.

Lemma map_set_where_absent k u now st :
  ~ In k (map id st) -> map (set_where k u now) st = st.
Proof.
  induction st as [|r st IH]; simpl; intros Hn; [reflexivity|].
  unfold set_where at 1, has_id.
  destruct (String.eqb_spec (id r) k) as [E|_]; [tauto|].
  f_equal. apply IH. tauto.
Qed.

Lemma set_where_title_keep k u now r :
  ui_title u = None -> title (set_where k u now r) = title r.
Proof.
  intros Hu. unfold set_where. destruct (has_id k r); [|reflexivity].
  simpl. now rewrite Hu.
Qed.

(** Titles after an [UPDATE] that met no clash. *)
Lemma NoDup_titles_set_where k t u now st :
  ui_title u = Some t ->
  NoDup (map id st) -> NoDup (map title st) ->
  (forall r, In r st -> id r <> k -> title r <> t) ->
  NoDup (map title (map (set_where k u now) st)).
Proof.
  intros Hu. induction st as [|x st IH]; simpl; intros Hi Ht Hother.
  - constructor.
  - inversion Hi as [|? ? Hix Hi']; inversion Ht as [|? ? Htx Ht']; subst.
    destruct (String.eqb_spec (id x) k) as [E|Hne].
    + rewrite map_set_where_absent by (now rewrite <- E).
      constructor; [|assumption].
      unfold set_where, has_id. rewrite E, String.eqb_refl. simpl. rewrite Hu.
      rewrite in_map_iff. intros (r & Hr & Hin).
      apply (Hother r); [now right| |assumption].
      intros Ek. apply Hix. rewrite E, <- Ek. now apply in_map.
    + constructor; [|apply IH; auto].
      assert (Hx : set_where k u now x = x).
      { unfold set_where, has_id.
        now destruct (String.eqb_spec (id x) k). }
      rewrite Hx, in_map_iff. intros (r' & Hr' & Hin').
      apply in_map_iff in Hin' as (r & <- & Hin).
      unfold set_where, has_id in Hr'.
      destruct (String.eqb_spec (id r) k) as [Ek|Hk].
      * simpl in Hr'. rewrite Hu in Hr'.
        apply (Hother x); [now left|assumption|now symmetry].
      * apply Htx. rewrite <- Hr'. now apply in_map.
Qed.

Lemma sql_update_inv u now v st st' :
  sql_update u now v st = (Ok tt, st') ->
  exists k, key_of v = Some k /\ st' = map (set_where k u now) st.
Proof.
  unfold sql_update, bind, bind_text.
  destruct (key_of v) as [k|]; simpl; [|discriminate].
  match goal with |- context [if ?c then _ else _] => destruct c end;
    [discriminate|].
  intros [= <-]. now exists k.
Qed.

(** [UPDATE] keeps the two constraints of the table. *)
Lemma sql_update_ok u now v st st' :
  store_ok st -> sql_update u now v st = (Ok tt, st') -> store_ok st'.
Proof.
  intros [Hi Ht]. unfold sql_update, bind, bind_text.
  destruct (key_of v) as [k|]; simpl; [|discriminate].
  destruct (ui_title u) as [t|] eqn:Hu.
  - destruct (existsb (has_id k) st) eqn:Ek; simpl.
    + destruct (existsb (fun r => negb (has_id k r) && has_title t r) st)
        eqn:Ec; [discriminate|].
      intros [= <-]. split; [now rewrite map_set_where_id|].
      apply NoDup_titles_set_where with (t := t); auto.
      intros r Hin Hne Htr.
      assert (Hex : existsb (fun r => negb (has_id k r) && has_title t r) st
                    = true).
      { apply existsb_exists. exists r. split; [assumption|].
        unfold has_id, has_title. rewrite Htr, String.eqb_refl.
        now destruct (String.eqb_spec (id r) k). }
      congruence.
    + intros [= <-]. rewrite map_set_where_absent; [now split|].
      rewrite <- existsb_has_id, Ek. discriminate.
  - intros [= <-]. split; [now rewrite map_set_where_id|].
    rewrite map_map.
    rewrite (map_ext _ title); [assumption|].
    intros r. now apply set_where_title_keep.
Qed.

Lemma sql_update_throw u now v st e st' :
  sql_update u now v st = (Throw e, st') ->
  st' = st
  /\ (e = bind_refusal v
      \/ exists t, ui_title u = Some t /\ e = unique_failed "title"
                   /\ exists r, In r st /\ key_of v <> Some (id r)
                                /\ title r = t).
Proof.
  unfold sql_update, bind, bind_text.
  destruct (key_of v) as [k|]; simpl; [|intros [= <- <-]; auto].
  destruct (ui_title u) as [t|]; [|discriminate].
  destruct (existsb (has_id k) st); simpl; [|discriminate].
  destruct (existsb (fun r => negb (has_id k r) && has_title t r) st)
    eqn:Ec; [|discriminate].
  intros [= <- <-]. split; [reflexivity|]. right. exists t.
  repeat split. apply existsb_exists in Ec as (r & Hin & Hr).
  apply andb_true_iff in Hr as [Hk Ht]. exists r. repeat split; auto.
  - intros [= ->]. unfold has_id in Hk. now rewrite String.eqb_refl in Hk.
  - now apply String.eqb_eq.
Qed.

Lemma filter_keeps_key {K} (key : Row -> K) (keep : Row -> bool) st :
  NoDup (map key st) -> NoDup (map key (filter keep st)).
Proof.
  intros Hnd. induction st as [|r st IH]; simpl; [constructor|].
  inversion Hnd as [|? ? Hr Hnd']; subst.
  destruct (keep r); simpl; [|now apply IH].
  constructor; [|now apply IH].
  rewrite in_map_iff. intros (x & Hx & Hin). apply Hr.
  rewrite <- Hx. apply in_map. now apply filter_In in Hin.
Qed.

Lemma sql_delete_inv v st o st' :
  sql_delete v st = (o, st') ->
  match key_of v with
  | Some k => o = Ok tt /\ st' = filter (fun r => negb (has_id k r)) st
  | None => o = Throw (bind_refusal v) /\ st' = st
  end.
Proof.
  unfold sql_delete, bind, bind_text.
  destruct (key_of v); simpl; intros [= <- <-]; auto.
Qed.

(** [DELETE] keeps the two constraints of the table. *)
Lemma sql_delete_ok v st o st' :
  store_ok st -> sql_delete v st = (o, st') -> store_ok st'.
Proof.
  intros [Hi Ht] Hd. apply sql_delete_inv in Hd.
  destruct (key_of v); destruct Hd as [_ ->]; [|now split].
  split; now apply filter_keeps_key.
Qed.

End StatementFacts.

(** ** The handlers, case by case *)

Section HandlerFacts.
Context `{SqlBinding}.

Lemma titleExists_eq t st :
  titleExists t st = (Ok (existsb (has_title t) st), st).
Proof.
  unfold titleExists, bind, sql_count_title, ret. do 2 f_equal.
  induction st as [|r st IH]; simpl; [reflexivity|].
  destruct (has_title t r); simpl; [|exact IH].
  apply Z.ltb_lt. lia.
Qed.

Lemma sql_select_by_id_eq v st :
  sql_select_by_id v st =
  match key_of v with
  | Some k => (Ok (filter (has_id k) st), st)
  | None => (Throw (bind_refusal v), st)
  end.
Proof.
  unfold sql_select_by_id, bind, bind_text. now destruct (key_of v).
Qed.

(** A payload the create schema accepts is an object. *)
Lemma createNoteSchema_parse_object v input :
  createNoteSchema_parse v = Ok input ->
  truthy v = true /\ typeof_object v = true.
Proof.
  destruct v as [[| | | | | |fields]|]; simpl; try discriminate. auto.
Qed.

Lemma createNoteSchema_parse_throws v e :
  createNoteSchema_parse v = Throw e -> e = ZodError.
Proof.
  destruct v as [[| | | | | |fields]|]; simpl; try congruence.
  repeat match goal with
         | |- context [lookup ?k fields] =>
             destruct (lookup k fields) as [[| | | | | |]|]; simpl
         end; congruence.
Qed.

Lemma updateNoteSchema_parse_throws v e :
  updateNoteSchema_parse v = Throw e -> e = ZodError.
Proof.
  destruct v as [[| | | | | |fields]|]; simpl; try congruence.
  repeat match goal with
         | |- context [lookup ?k fields] =>
             destruct (lookup k fields) as [[| | | | | |]|]; simpl
         end; congruence.
Qed.

Lemma createNote_wrong_method uuid now request st :
  method request <> "POST" ->
  createNote uuid now request st
  = (method_not_supported (has_batch request), st).
Proof.
  intros Hm. unfold createNote, handler, createNote_try.
  now destruct (String.eqb_spec (method request) "POST").
Qed.

(** [createNote] on a POST whose payload the schema refuses. *)
Lemma createNote_refused uuid now request st e :
  method request = "POST" ->
  createNoteSchema_parse (input_of request) = Throw e ->
  exists msg,
    createNote uuid now request st
    = (formatTRPCErrorResponse "BAD_REQUEST" msg 400 (has_batch request), st)
    /\ (msg = "Invalid request format" \/ msg = "Validation error").
Proof.
  intros Hm Hp. unfold createNote, handler, createNote_try.
  fold (input_of request). rewrite Hm, String.eqb_refl. cbn [negb orb].
  destruct (negb (truthy _) || negb (typeof_object _)).
  - eexists. split; [reflexivity|now left].
  - unfold bind, lift. rewrite Hp.
    apply createNoteSchema_parse_throws in Hp as ->.
    eexists. split; [reflexivity|now right].
Qed.

Lemma select_new_row uuid now input st :
  existsb (has_id uuid) st = false ->
  filter (has_id uuid) (st ++ [new_row uuid now input])
  = [new_row uuid now input].
Proof.
  intros Hid. rewrite filter_app, filter_has_id_nil.
  - simpl. unfold has_id. simpl. now rewrite String.eqb_refl.
  - rewrite <- existsb_has_id, Hid. discriminate.
Qed.

(** [createNote] on a POST whose payload the schema accepts. *)
Lemma createNote_accepted uuid now request st input :
  method request = "POST" ->
  createNoteSchema_parse (input_of request) = Ok input ->
  createNote uuid now request st =
  if existsb (has_title (ci_title input)) st || existsb (has_id uuid) st
  then (conflict (has_batch request), st)
  else (formatTRPCResponse
          (Created (mapSqliteRow (new_row uuid now input)))
          (has_batch request),
        (st ++ [new_row uuid now input])%list).
Proof.
  intros Hm Hp. unfold createNote, handler, createNote_try.
  fold (input_of request). rewrite Hm, String.eqb_refl. cbn [negb orb].
  destruct (createNoteSchema_parse_object _ _ Hp) as [-> ->]. cbn [negb orb]. unfold bind at 1, lift. rewrite Hp.
  unfold bind at 1. rewrite titleExists_eq.
  destruct (existsb (has_title (ci_title input)) st) eqn:Et; cbn [negb orb].
  { reflexivity. }
  unfold bind at 1, insert_guarded, try_catch, bind at 1, sql_insert.
  change (id (new_row uuid now input)) with uuid.
  change (title (new_row uuid now input)) with (ci_title input).
  rewrite Et.
  destruct (existsb (has_id uuid) st) eqn:Ei.
  { reflexivity. }
  unfold ret at 1. unfold bind at 1. rewrite sql_select_by_id_eq.
  simpl key_of. cbv iota. rewrite select_new_row by assumption.
  reflexivity.
Qed.

Lemma truthy_get_prop v k : truthy (get_prop v k) = true -> truthy v = true.
Proof. now destruct v as [[| | | | | |]|]. Qed.

Lemma js_or_truthy w d : truthy (Some w) = true -> js_or (Some w) d = w.
Proof. intros Ht. unfold js_or. now rewrite Ht. Qed.

Lemma updateNote_wrong_method now request st :
  method request <> "POST" ->
  updateNote now request st = (method_not_supported (has_batch request), st).
Proof.
  intros Hm. unfold updateNote, handler, updateNote_try.
  now destruct (String.eqb_spec (method request) "POST").
Qed.

Lemma updateNote_missing now request st :
  method request = "POST" ->
  truthy (params_noteId_of request) = false ->
  updateNote now request st = (missing_noteId (has_batch request), st).
Proof.
  intros Hm Hn. unfold updateNote, handler, updateNote_try.
  rewrite Hm, String.eqb_refl. cbn [negb].
  fold (input_of request). fold (params_noteId_of request).
  rewrite Hn. cbn [negb]. now rewrite !orb_true_r.
Qed.

(** The [try] of [updateNote] once the request passed the first test. *)
Lemma updateNote_try_decoded now request nid st :
  method request = "POST" ->
  params_noteId_of request = Some nid ->
  truthy (Some nid) = true ->
  updateNote_try now request st =
  (u <- lift (updateNoteSchema_parse (Some (updateData_of request))) ;;
   checkResult <- sql_select_by_id nid ;;
   if (List.length checkResult =? 0)%nat
   then ret (not_found (has_batch request))
   else
     taken <-
       match ui_title u with
       | Some t =>
           currentNoteResult <- sql_select_by_id nid ;;
           current <- one currentNoteResult ;;
           if negb (t =? title current)%string then titleExists t
           else ret false
       | None => ret false
       end ;;
     if taken then ret (conflict (has_batch request))
     else
       sql_update u now nid ;;;
       result <- sql_select_by_id nid ;;
       row <- one result ;;
       ret (formatTRPCResponse (Single (mapSqliteRow row))
              (has_batch request))) st.
Proof.
  intros Hm Hn Ht. unfold updateNote_try.
  rewrite Hm, String.eqb_refl. cbn [negb].
  fold (input_of request). fold (params_noteId_of request).
  fold (updateData_of request).
  assert (Hp : truthy (get_prop (input_of request) "params") = true).
  { apply truthy_get_prop with (k := "noteId").
    fold (params_noteId_of request). now rewrite Hn. }
  rewrite (truthy_get_prop _ _ Hp), Hp, Hn, Ht. cbn [negb orb].
  now rewrite (js_or_truthy nid JNull Ht).
Qed.

Lemma updateNote_refused now request nid st e :
  method request = "POST" ->
  params_noteId_of request = Some nid ->
  truthy (Some nid) = true ->
  updateNoteSchema_parse (Some (updateData_of request)) = Throw e ->
  updateNote now request st
  = (formatTRPCErrorResponse "BAD_REQUEST" "Validation error" 400
       (has_batch request), st).
Proof.
  intros Hm Hn Ht Hp. unfold updateNote, handler.
  rewrite (updateNote_try_decoded now request nid st Hm Hn Ht).
  unfold bind at 1, lift. rewrite Hp.
  now apply updateNoteSchema_parse_throws in Hp as ->.
Qed.

Lemma updateNote_unbound now request nid st u :
  method request = "POST" ->
  params_noteId_of request = Some nid ->
  truthy (Some nid) = true ->
  updateNoteSchema_parse (Some (updateData_of request)) = Ok u ->
  key_of nid = None ->
  updateNote now request st
  = (internal_error (bind_refusal nid) (has_batch request), st).
Proof.
  intros Hm Hn Ht Hp Hk. unfold updateNote, handler.
  rewrite (updateNote_try_decoded now request nid st Hm Hn Ht).
  unfold bind at 1, lift. rewrite Hp.
  unfold bind at 1. rewrite sql_select_by_id_eq, Hk.
  now rewrite catch_write_other by apply bind_refusal_other.
Qed.

Lemma updateNote_absent now request nid st u k :
  method request = "POST" ->
  params_noteId_of request = Some nid ->
  truthy (Some nid) = true ->
  updateNoteSchema_parse (Some (updateData_of request)) = Ok u ->
  key_of nid = Some k ->
  ~ In k (map id st) ->
  updateNote now request st = (not_found (has_batch request), st).
Proof.
  intros Hm Hn Ht Hp Hk Hnin. unfold updateNote, handler.
  rewrite (updateNote_try_decoded now request nid st Hm Hn Ht).
  unfold bind at 1, lift. rewrite Hp.
  unfold bind at 1. rewrite sql_select_by_id_eq, Hk.
  now rewrite filter_has_id_nil.
Qed.

Lemma no_clash_when_free u row st :
  store_ok st -> In row st -> title_taken u row st = false ->
  match ui_title u with
  | Some t =>
      existsb (has_id (id row)) st
      && existsb (fun r => negb (has_id (id row) r) && has_title t r) st
  | None => false
  end = false.
Proof.
  intros [Hi Ht] Hin Hfree. unfold title_taken in Hfree.
  destruct (ui_title u) as [t|]; [|reflexivity].
  apply andb_false_iff. right.
  apply not_true_is_false. intros Hex.
  apply existsb_exists in Hex as (r & Hr & Hc).
  apply andb_true_iff in Hc as [Hid Htr].
  unfold has_title in Htr. apply String.eqb_eq in Htr.
  apply andb_false_iff in Hfree as [Hsame|Hnone].
  - apply negb_false_iff, String.eqb_eq in Hsame. subst t.
    assert (r = row); [|subst r].
    { clear - Ht Hr Hin Htr. induction st as [|x st IH]; [easy|].
      simpl in Ht. inversion Ht as [|? ? Hx Ht']; subst.
      destruct Hr as [->|Hr], Hin as [->|Hin]; auto.
      - exfalso. apply Hx. rewrite Htr. now apply in_map.
      - exfalso. apply Hx. rewrite <- Htr. now apply in_map. }
    unfold has_id in Hid. now rewrite String.eqb_refl in Hid.
  - assert (existsb (has_title t) st = true); [|congruence].
    apply existsb_exists. exists r. split; [assumption|].
    unfold has_title. now apply String.eqb_eq.
Qed.

Lemma select_after_update k u now st row :
  NoDup (map id st) -> In row st -> id row = k ->
  filter (has_id k) (map (set_where k u now) st) = [set_fields u now row].
Proof.
  intros Hnd Hin <-.
  assert (Hrow : set_where (id row) u now row = set_fields u now row).
  { unfold set_where, has_id. now rewrite String.eqb_refl. }
  rewrite <- Hrow.
  change (id row) with (id (set_fields u now row)) at 1.
  rewrite <- Hrow at 1.
  apply filter_has_id_one.
  - now rewrite map_set_where_id.
  - now apply in_map.
Qed.

(** [updateNote] on a POST that names a note of the table and carries a
    payload the schema accepts. *)
Lemma updateNote_found now request nid st u row :
  method request = "POST" ->
  params_noteId_of request = Some nid ->
  truthy (Some nid) = true ->
  updateNoteSchema_parse (Some (updateData_of request)) = Ok u ->
  store_ok st -> In row st -> key_of nid = Some (id row) ->
  updateNote now request st =
  if title_taken u row st then (conflict (has_batch request), st)
  else (formatTRPCResponse (Single (mapSqliteRow (set_fields u now row)))
          (has_batch request),
        map (set_where (id row) u now) st).
Proof.
  intros Hm Hn Ht Hp Hok Hin Hk. unfold updateNote, handler.
  rewrite (updateNote_try_decoded now request nid st Hm Hn Ht).
  unfold bind at 1, lift. rewrite Hp.
  unfold bind at 1. rewrite sql_select_by_id_eq, Hk.
  rewrite (filter_has_id_one st row (proj1 Hok) Hin). cbn [List.length Nat.eqb].
  unfold bind at 1.
  assert (Hcheck :
    match ui_title u with
    | Some t =>
        currentNoteResult <- sql_select_by_id nid ;;
        current <- one currentNoteResult ;;
        if negb (t =? title current)%string then titleExists t
        else ret false
    | None => ret false
    end st = (Ok (title_taken u row st), st)).
  { unfold title_taken. destruct (ui_title u) as [t|]; [|reflexivity].
    unfold bind at 1. rewrite sql_select_by_id_eq, Hk.
    rewrite (filter_has_id_one st row (proj1 Hok) Hin).
    unfold bind, one at 1, ret at 1.
    destruct (negb (t =? title row)%string); [apply titleExists_eq|].
    reflexivity. }
  rewrite Hcheck.
  destruct (title_taken u row st) eqn:Etaken; [reflexivity|].
  unfold bind at 1, sql_update, bind at 1, bind_text. rewrite Hk.
  unfold ret at 1.
  rewrite (no_clash_when_free u row st Hok Hin Etaken).
  unfold bind at 1. rewrite sql_select_by_id_eq, Hk.
  now rewrite (select_after_update (id row) u now st row (proj1 Hok) Hin eq_refl).
Qed.

Lemma no_row_with_id k st :
  (List.length (filter (has_id k) st) =? 0)%nat = negb (existsb (has_id k) st).
Proof.
  induction st as [|r st IH]; simpl; [reflexivity|].
  destruct (has_id k r); simpl; [reflexivity|exact IH].
Qed.

Lemma deleteNote_wrong_method request st :
  method request <> "POST" ->
  deleteNote request st = (method_not_supported (has_batch request), st).
Proof.
  intros Hm. unfold deleteNote, handler, deleteNote_try.
  now destruct (String.eqb_spec (method request) "POST").
Qed.

Lemma deleteNote_missing request st :
  method request = "POST" ->
  truthy (noteId_of request) = false ->
  deleteNote request st = (missing_noteId (has_batch request), st).
Proof.
  intros Hm Hn. unfold deleteNote, handler, deleteNote_try.
  rewrite Hm, String.eqb_refl. cbn [negb].
  fold (input_of request). fold (noteId_of request).
  rewrite Hn. cbn [negb]. now rewrite orb_true_r.
Qed.

(** [deleteNote] on a POST that carries a [noteId]. *)
Lemma deleteNote_decoded request nid st :
  method request = "POST" ->
  noteId_of request = Some nid ->
  truthy (Some nid) = true ->
  deleteNote request st =
  match key_of nid with
  | None => (internal_error (bind_refusal nid) (has_batch request), st)
  | Some k =>
      if existsb (has_id k) st
      then (formatTRPCResponse Deleted (has_batch request),
            filter (fun r => negb (has_id k r)) st)
      else (not_found (has_batch request), st)
  end.
Proof.
  intros Hm Hn Ht. unfold deleteNote, handler, deleteNote_try.
  rewrite Hm, String.eqb_refl. cbn [negb].
  fold (input_of request). fold (noteId_of request).
  assert (Hi : truthy (input_of request) = true).
  { apply truthy_get_prop with (k := "noteId").
    fold (noteId_of request). now rewrite Hn. }
  rewrite Hi, Hn, Ht. cbn [negb orb]. rewrite (js_or_truthy nid JNull Ht).
  unfold bind at 1. rewrite sql_select_by_id_eq.
  destruct (key_of nid) as [k|] eqn:Hk; [|reflexivity].
  rewrite no_row_with_id.
  destruct (existsb (has_id k) st); cbn [negb]; [|reflexivity].
  unfold bind, sql_delete, bind, bind_text. now rewrite Hk.
Qed.

Lemma getNote_missing request st :
  truthy (noteId_of request) = false ->
  getNote request st = (missing_noteId (has_batch request), st).
Proof.
  intros Hn. unfold getNote, handler, getNote_try.
  fold (input_of request). fold (noteId_of request).
  rewrite Hn. cbn [negb]. now rewrite orb_true_r.
Qed.

(** [getNote] on a request that carries a [noteId]. *)
Lemma getNote_decoded request nid st :
  noteId_of request = Some nid ->
  truthy (Some nid) = true ->
  getNote request st =
  match key_of nid with
  | None => (internal_error (bind_refusal nid) (has_batch request), st)
  | Some k =>
      match filter (has_id k) st with
      | [] => (not_found (has_batch request), st)
      | row :: _ =>
          (formatTRPCResponse (Single (mapSqliteRow row)) (has_batch request),
           st)
      end
  end.
Proof.
  intros Hn Ht. unfold getNote, handler, getNote_try.
  fold (input_of request). fold (noteId_of request).
  assert (Hi : truthy (input_of request) = true).
  { apply truthy_get_prop with (k := "noteId").
    fold (noteId_of request). now rewrite Hn. }
  rewrite Hi, Hn, Ht. cbn [negb orb]. rewrite (js_or_truthy nid JNull Ht).
  unfold bind at 1. rewrite sql_select_by_id_eq.
  destruct (key_of nid) as [k|]; [|reflexivity].
  now destruct (filter (has_id k) st).
Qed.

(** [getNotes] is its page statement and nothing else. *)
Lemma getNotes_eq request st :
  getNotes request st =
  match sql_select_page (page_of request) (limit_of request) st with
  | (Ok result, st') =>
      (formatTRPCResponse
         (Page (Z.of_nat (List.length (map mapSqliteRow result)))
            (map mapSqliteRow result))
         (has_batch request), st')
  | (Throw e, st') => (catch_getNotes (has_batch request) e, st')
  end.
Proof.
  unfold getNotes, handler, getNotes_try, bind, ret.
  fold (input_of request). fold (page_of request). fold (limit_of request).
  now destruct (sql_select_page (page_of request) (limit_of request) st)
    as [[result|e] st'].
Qed.

End HandlerFacts.

(** ** The request decoder *)

Lemma parseInput_decoded request rawData :
  decoded request rawData ->
  parseInput request = shape_payload (has_batch request) rawData.
Proof.
  unfold decoded, parseInput, parseInput_try. fold (declared_type request).
  intros [[Hm Hi]|(Hm & Hc & Hb)].
  - now rewrite Hm, Hi.
  - rewrite Hm, Hc, Hb. reflexivity.
Qed.

Lemma parseInput_failure request :
  decode_failure request -> parseInput request = empty_payload.
Proof.
  unfold parseInput, parseInput_try. fold (declared_type request).
  intros [t Hm Hi Ht|Hm Hc|Hm Hb|Hg Hp].
  - rewrite Hm, Hi. cbn [String.eqb Ascii.eqb Bool.eqb].
    destruct t as [|v|]; try reflexivity. now destruct (Ht v).
  - rewrite Hm, Hc. reflexivity.
  - rewrite Hm. cbn [String.eqb Ascii.eqb Bool.eqb].
    destruct (includes _ _); [|reflexivity].
    destruct (body request) as [|v|]; try reflexivity. now destruct (Hb v).
  - destruct (String.eqb_spec (method request) "GET"); [contradiction|].
    now destruct (String.eqb_spec (method request) "POST").
Qed.

(** C6: every decode failure (an [input] parameter or a body that is not
    JSON, a content type other than JSON, a method other than GET and POST)
    makes the decoder return the empty payload [{ input: {} }]; and
    [createNote] on a POST whose decoding fails answers BAD_REQUEST (400)
    with the message of a validation failure, leaving the table as it
    was. *)
Theorem decode_failure_yields_empty_payload :
  forall `{SqlBinding} (request : Request),
    decode_failure request ->
    parseInput request = empty_payload
    /\ (method request = "POST" ->
        forall uuid now st,
          createNote uuid now request st
          = (formatTRPCErrorResponse "BAD_REQUEST" "Validation error" 400
               (has_batch request), st)).
Proof.
  intros B request Hfail.
  pose proof (parseInput_failure request Hfail) as He.
  split; [exact He|].
  intros Hm uuid now st. unfold createNote, handler, createNote_try.
  rewrite Hm, String.eqb_refl, He. reflexivity.
Qed.

Lemma decode_failure_yields_empty_payload_witness :
  decode_failure malformed_create
  /\ parseInput malformed_create = empty_payload
  /\ createNote (H := strict_binding) "id-1" t1 malformed_create []
     = (Reply 400 false (Error "Validation error" "BAD_REQUEST"), []).
Proof.
  assert (Hfail : decode_failure malformed_create).
  { apply bad_body; [reflexivity|discriminate]. }
  destruct (decode_failure_yields_empty_payload (H := strict_binding)
              malformed_create Hfail) as [Hempty Hcreate].
  split; [exact Hfail|]. split; [exact Hempty|].
  apply (Hcreate eq_refl).
Defined.

(** C7: for a raw value the decoder parsed: in batch mode, when the value
    is an object with a defined key ["0"], the payload is
    [{ input: rawData["0"] }]; otherwise, when the value has a defined field
    [input], the payload is the value itself; otherwise it is
    [{ input: rawData }]. *)
Theorem decoded_payload_shape :
  forall (request : Request) (rawData : json),
    decoded request rawData ->
    (forall v,
        has_batch request = true ->
        typeof_object (Some rawData) = true ->
        get_prop (Some rawData) "0" = Some v ->
        parseInput request = JObj [("input", v)])
    /\ (batch_envelope (has_batch request) rawData = false ->
        forall w,
          get_prop (Some rawData) "input" = Some w ->
          parseInput request = rawData)
    /\ (batch_envelope (has_batch request) rawData = false ->
        get_prop (Some rawData) "input" = undefined ->
        parseInput request = JObj [("input", rawData)]).
Proof.
  intros request rawData Hd. rewrite (parseInput_decoded _ _ Hd).
  unfold shape_payload, batch_envelope.
  assert (Htruthy : forall k v,
             get_prop (Some rawData) k = Some v ->
             truthy (Some rawData) = true).
  { intros k v Hk. destruct rawData; try discriminate; reflexivity. }
  repeat split.
  - intros v Hb Ho H0. now rewrite Hb, (Htruthy _ _ H0), Ho, H0.
  - intros Hnb w Hw. rewrite (Htruthy _ _ Hw), Hw.
    destruct (has_batch request), (typeof_object (Some rawData)),
      (get_prop (Some rawData) "0"); try discriminate; reflexivity.
  - intros Hnb Hu. rewrite Hu, andb_false_r.
    destruct (has_batch request), (typeof_object (Some rawData)),
      (get_prop (Some rawData) "0"), (truthy (Some rawData));
      try discriminate; reflexivity.
Qed.

Lemma decoded_payload_shape_witness :
  decoded batched_create
    (JObj [("0", JObj [("title", JStr "A"); ("content", JStr "x")])])
  /\ parseInput batched_create
     = JObj [("input", JObj [("title", JStr "A"); ("content", JStr "x")])].
Proof.
  assert (Hd : decoded batched_create
                 (JObj [("0", JObj [("title", JStr "A");
                                    ("content", JStr "x")])])).
  { right. repeat split. }
  split; [exact Hd|].
  destruct (decoded_payload_shape batched_create _ Hd) as (Hbatch & _).
  apply Hbatch; reflexivity.
Defined.

(** An array is an object too: in batch mode its first element is the
    payload. *)
Lemma batch_unwraps_arrays request v rest :
  decoded request (JArr (v :: rest)) -> has_batch request = true ->
  parseInput request = JObj [("input", v)].
Proof.
  intros Hd Hb. rewrite (parseInput_decoded _ _ Hd).
  unfold shape_payload. now rewrite Hb.
Qed.

Lemma limit_offset_first_page l rows :
  0 <= l -> rows_from l 0 rows = firstn (Z.to_nat l) rows.
Proof.
  intros Hl. unfold rows_from. simpl.
  destruct (Z.ltb_spec l 0); [lia|reflexivity].
Qed.

Lemma safe_integer_int64 n : safe_integer n = true -> int64 n = true.
Proof.
  unfold safe_integer, int64, max_safe_integer.
  rewrite !andb_true_iff, !Z.leb_le. lia.
Qed.

(** The page statement where JavaScript's arithmetic is exact. *)
Lemma sql_select_page_safe `{SqlBinding} P L st :
  safe_integer P = true -> safe_integer L = true ->
  safe_integer ((P - 1) * L) = true ->
  sql_select_page (JNum P) (JNum L) st
  = (Ok (rows_from L ((P - 1) * L) (order_by_createdAt_desc st)), st).
Proof.
  intros HP HL HO. unfold sql_select_page, js_offset, limit_offset.
  rewrite HP, HL, HO. cbn [andb].
  now rewrite (safe_integer_int64 _ HL), (safe_integer_int64 _ HO).
Qed.

(** C10: when the method is neither GET nor POST the decoder reads nothing
    and returns the empty payload; [getNote] then answers BAD_REQUEST for
    the missing [noteId], and [getNotes] answers the first page with the
    defaults, page 1 and limit 10: the ten newest notes. *)
Theorem other_methods_carry_no_payload :
  forall `{SqlBinding} (request : Request),
    method request <> "GET" -> method request <> "POST" ->
    parseInput request = empty_payload
    /\ page_of request = JNum 1 /\ limit_of request = JNum 10
    /\ forall st,
        getNote request st = (missing_noteId (has_batch request), st)
        /\ getNotes request st
           = (let notes :=
                map mapSqliteRow (firstn 10 (order_by_createdAt_desc st)) in
              formatTRPCResponse (Page (Z.of_nat (List.length notes)) notes)
                (has_batch request),
              st)
        /\ (method request <> "OPTIONS" ->
            forall uuid now,
              (pathname request = "/api/trpc/getNote" ->
               fetch uuid now request st = getNote request st)
              /\ (pathname request = "/api/trpc/getNotes" ->
                  fetch uuid now request st = getNotes request st)).
Proof.
  intros B request Hg Hp.
  pose proof (parseInput_failure request (bad_method request Hg Hp)) as He.
  assert (Hpage : page_of request = JNum 1).
  { unfold page_of, input_of. now rewrite He. }
  assert (Hlimit : limit_of request = JNum 10).
  { unfold limit_of, input_of. now rewrite He. }
  repeat split; try assumption.
  - apply getNote_missing. unfold noteId_of, input_of. now rewrite He.
  - rewrite getNotes_eq, Hpage, Hlimit.
    rewrite sql_select_page_safe by reflexivity.
    change ((1 - 1) * 10) with 0.
    now rewrite limit_offset_first_page by lia.
  - unfold fetch. intros ->.
    now destruct (String.eqb_spec (method request) "OPTIONS").
  - unfold fetch. intros ->.
    now destruct (String.eqb_spec (method request) "OPTIONS").
Qed.

Lemma other_methods_carry_no_payload_witness :
  method put_getNote <> "GET" /\ method put_getNote <> "POST"
  /\ parseInput put_getNote = empty_payload
  /\ getNote (H := strict_binding) put_getNote [row_A]
     = (Reply 400 false
          (Error "Invalid request format: missing noteId" "BAD_REQUEST"),
        [row_A]).
Proof.
  assert (Hg : method put_getNote <> "GET") by discriminate.
  assert (Hp : method put_getNote <> "POST") by discriminate.
  destruct (other_methods_carry_no_payload (H := strict_binding)
              put_getNote Hg Hp) as (Hempty & _ & _ & Hst).
  destruct (Hst [row_A]) as (Hget & _).
  split; [exact Hg|]. split; [exact Hp|]. split; [exact Hempty|].
  exact Hget.
Defined.

(** ** What the handlers do to the table *)

Section Effects.
Context `{SqlBinding}.

(** [createNote] answers an error and leaves the table alone, or appends
    the new row. *)
Lemma createNote_cases uuid now request st :
  (exists code msg status,
      createNote uuid now request st
      = (formatTRPCErrorResponse code msg status (has_batch request), st))
  \/ (exists input,
         method request = "POST"
         /\ createNoteSchema_parse (input_of request) = Ok input
         /\ existsb (has_title (ci_title input)) st = false
         /\ existsb (has_id uuid) st = false
         /\ createNote uuid now request st
            = (formatTRPCResponse
                 (Created (mapSqliteRow (new_row uuid now input)))
                 (has_batch request),
               (st ++ [new_row uuid now input])%list)).
Proof.
  destruct (String.eqb_spec (method request) "POST") as [Hm|Hm].
  - destruct (createNoteSchema_parse (input_of request)) as [input|e] eqn:Hp.
    + rewrite (createNote_accepted uuid now request st input Hm Hp).
      destruct (existsb (has_title (ci_title input)) st) eqn:Et;
        [left; now eexists _, _, _|].
      destruct (existsb (has_id uuid) st) eqn:Ei;
        [left; now eexists _, _, _|].
      right. exists input. repeat split; auto.
    + destruct (createNote_refused uuid now request st e Hm Hp)
        as (msg & -> & _).
      left. now eexists _, _, _.
  - rewrite createNote_wrong_method by assumption.
    left. now eexists _, _, _.
Qed.

Lemma sql_update_free u now nid row st :
  store_ok st -> In row st -> key_of nid = Some (id row) ->
  title_taken u row st = false ->
  sql_update u now nid st = (Ok tt, map (set_where (id row) u now) st).
Proof.
  intros Hok Hin Hk Hfree. unfold sql_update, bind, bind_text.
  rewrite Hk. unfold ret.
  now rewrite (no_clash_when_free u row st Hok Hin Hfree).
Qed.

(** The conflict test of [updateNote] reads the table and writes nothing. *)
Lemma update_check_reads u nid st o st' :
  match ui_title u with
  | Some t =>
      currentNoteResult <- sql_select_by_id nid ;;
      current <- one currentNoteResult ;;
      if negb (t =? title current)%string then titleExists t else ret false
  | None => ret false
  end st = (o, st') ->
  st' = st.
Proof.
  destruct (ui_title u) as [t|]; [|now intros [= <- <-]].
  unfold bind at 1. rewrite sql_select_by_id_eq.
  destruct (key_of nid) as [k|]; [|now intros [= <- <-]].
  unfold bind at 1.
  destruct (filter (has_id k) st) as [|r [|r' rows]]; simpl;
    try (now intros [= <- <-]).
  destruct (negb (t =? title r)%string); [|now intros [= <- <-]].
  rewrite titleExists_eq. now intros [= <- <-].
Qed.

(** [updateNote] leaves the table alone unless it answers a success, or the
    500 of a failure it did not foresee. *)
Lemma updateNote_effect now request st :
  snd (updateNote now request st) = st
  \/ error_code (fst (updateNote now request st)) = None
  \/ error_code (fst (updateNote now request st))
     = Some "INTERNAL_SERVER_ERROR".
Proof.
  set (P := fun p : Response * Store =>
              snd p = st \/ error_code (fst p) = None
              \/ error_code (fst p) = Some "INTERNAL_SERVER_ERROR").
  change (P (updateNote now request st)).
  assert (Hsame : forall r, P (r, st)) by (intros r; now left).
  destruct (String.eqb_spec (method request) "POST") as [Hm|Hm];
    [|now rewrite updateNote_wrong_method].
  destruct (truthy (params_noteId_of request)) eqn:Ht;
    [|now rewrite updateNote_missing].
  destruct (params_noteId_of request) as [nid|] eqn:Hn; [|discriminate].
  unfold updateNote, handler.
  rewrite (updateNote_try_decoded now request nid st Hm Hn Ht).
  unfold bind at 1, lift.
  destruct (updateNoteSchema_parse _) as [u|e]; [|apply Hsame].
  unfold bind at 1. rewrite sql_select_by_id_eq.
  destruct (key_of nid) as [k|] eqn:Hk; [|apply Hsame].
  destruct (List.length (filter (has_id k) st) =? 0)%nat; [apply Hsame|].
  unfold bind at 1.
  match goal with
  | |- context [match ?check st with _ => _ end] =>
      destruct (check st) as [[taken|e] st1] eqn:Hc
  end;
    apply update_check_reads in Hc; subst st1; [|apply Hsame].
  destruct taken; [apply Hsame|].
  unfold bind at 1.
  destruct (sql_update u now nid st) as [[[]|e] st1] eqn:Hu.
  - unfold bind at 1. rewrite sql_select_by_id_eq, Hk.
    unfold bind, one, P.
    destruct (filter (has_id k) st1) as [|r [|r' rows]]; simpl; auto.
  - apply sql_update_throw in Hu as [-> _]. apply Hsame.
Qed.

(** [deleteNote] answers an error and leaves the table alone, or removes
    the rows of the id. *)
Lemma deleteNote_cases request st :
  (exists code msg status,
      deleteNote request st
      = (formatTRPCErrorResponse code msg status (has_batch request), st))
  \/ (exists k,
         deleteNote request st
         = (formatTRPCResponse Deleted (has_batch request),
            filter (fun r => negb (has_id k r)) st)).
Proof.
  destruct (String.eqb_spec (method request) "POST") as [Hm|Hm].
  - destruct (truthy (noteId_of request)) eqn:Ht.
    + destruct (noteId_of request) as [nid|] eqn:Hn; [|discriminate].
      rewrite (deleteNote_decoded request nid st Hm Hn Ht).
      destruct (key_of nid) as [k|]; [|left; now eexists _, _, _].
      destruct (existsb (has_id k) st); [right; now exists k|].
      left. now eexists _, _, _.
    + rewrite deleteNote_missing by assumption. left. now eexists _, _, _.
  - rewrite deleteNote_wrong_method by assumption.
    left. now eexists _, _, _.
Qed.

Lemma getNote_reads request st : snd (getNote request st) = st.
Proof.
  destruct (truthy (noteId_of request)) eqn:Ht.
  - destruct (noteId_of request) as [nid|] eqn:Hn; [|discriminate].
    rewrite (getNote_decoded request nid st Hn Ht).
    destruct (key_of nid) as [k|]; [|reflexivity].
    now destruct (filter (has_id k) st).
  - now rewrite getNote_missing.
Qed.

Lemma sql_select_page_reads page limit st o st' :
  sql_select_page page limit st = (o, st') -> st' = st.
Proof.
  unfold sql_select_page, js_offset.
  repeat match goal with
         | |- context [match ?x with _ => _ end] => destruct x
         end; now intros [= <- <-].
Qed.

Lemma sql_select_page_throws page limit st e st' :
  sql_select_page page limit st = (Throw e, st') ->
  e = page_refusal page limit st.
Proof.
  unfold sql_select_page, js_offset.
  repeat match goal with
         | |- context [match ?x with _ => _ end] => destruct x
         end; now intros [= <- <-].
Qed.

Lemma getNotes_reads request st : snd (getNotes request st) = st.
Proof.
  rewrite getNotes_eq.
  destruct (sql_select_page (page_of request) (limit_of request) st)
    as [[rows|e] st'] eqn:E;
    now apply sql_select_page_reads in E as ->.
Qed.

Lemma createNote_ok uuid now request st :
  store_ok st -> store_ok (snd (createNote uuid now request st)).
Proof.
  intros Hok.
  destruct (createNote_cases uuid now request st)
    as [(code & msg & status & ->)|(input & _ & _ & Et & Ei & ->)];
    [assumption|].
  destruct Hok as [Hi Ht]. simpl snd.
  split; rewrite map_app; apply NoDup_snoc; auto; simpl.
  - rewrite <- existsb_has_id, Ei. discriminate.
  - rewrite <- existsb_has_title, Et. discriminate.
Qed.

Lemma updateNote_ok now request st :
  store_ok st -> store_ok (snd (updateNote now request st)).
Proof.
  intros Hok.
  destruct (String.eqb_spec (method request) "POST") as [Hm|Hm];
    [|now rewrite updateNote_wrong_method].
  destruct (truthy (params_noteId_of request)) eqn:Ht;
    [|now rewrite updateNote_missing].
  destruct (params_noteId_of request) as [nid|] eqn:Hn; [|discriminate].
  destruct (updateNoteSchema_parse (Some (updateData_of request)))
    as [u|e] eqn:Hp;
    [|now rewrite (updateNote_refused now request nid st e)].
  destruct (key_of nid) as [k|] eqn:Hk;
    [|now rewrite (updateNote_unbound now request nid st u)].
  destruct (in_dec string_dec k (map id st)) as [Hin|Hnin];
    [|now rewrite (updateNote_absent now request nid st u k)].
  apply in_map_iff in Hin as (row & <- & Hin).
  rewrite (updateNote_found now request nid st u row) by assumption.
  destruct (title_taken u row st) eqn:Hfree; [assumption|].
  simpl snd.
  apply (sql_update_ok u now nid st); [assumption|].
  now apply sql_update_free.
Qed.

Lemma deleteNote_ok request st :
  store_ok st -> store_ok (snd (deleteNote request st)).
Proof.
  intros Hok.
  destruct (deleteNote_cases request st)
    as [(code & msg & status & ->)|(k & ->)]; [assumption|].
  destruct Hok. split; now apply filter_keeps_key.
Qed.

Lemma fetch_ok uuid now request st :
  store_ok st -> store_ok (snd (fetch uuid now request st)).
Proof.
  intros Hok. unfold fetch.
  repeat match goal with
         | |- context [if ?c then _ else _] => destruct c
         end;
    auto using createNote_ok, updateNote_ok, deleteNote_ok.
  - now rewrite getNote_reads.
  - now rewrite getNotes_reads.
Qed.

(** The two constraints of the table hold whatever requests were served. *)
Lemma reachable_ok st : reachable st -> store_ok st.
Proof.
  induction 1;
    auto using createNote_ok, updateNote_ok, deleteNote_ok, fetch_ok.
  split; constructor.
Qed.

End Effects.

(** ** Uniqueness of titles *)




(** ** Errors change nothing *)

(** C9: when [createNote], [updateNote] or [deleteNote] answers one of
    BAD_REQUEST, CONFLICT, NOT_FOUND and METHOD_NOT_SUPPORTED, the table
    after the request is the table before it. *)
Theorem errors_leave_the_table :
  forall `{SqlBinding} (code : string) (st : Store),
    In code client_errors ->
    (forall uuid now request,
        error_code (fst (createNote uuid now request st)) = Some code ->
        snd (createNote uuid now request st) = st)
    /\ (forall now request,
           error_code (fst (updateNote now request st)) = Some code ->
           snd (updateNote now request st) = st)
    /\ (forall request,
           error_code (fst (deleteNote request st)) = Some code ->
           snd (deleteNote request st) = st).
Proof.
  intros B code st Hcode. repeat split.
  - intros uuid now request.
    destruct (createNote_cases uuid now request st)
      as [(c & msg & status & ->)|(input & _ & _ & _ & _ & ->)];
      [reflexivity|discriminate].
  - intros now request Herr.
    destruct (updateNote_effect now request st) as [Hs|[Hn|Hi]];
      [assumption|congruence|].
    rewrite Herr in Hi. injection Hi as ->.
    unfold client_errors in Hcode. simpl in Hcode.
    repeat destruct Hcode as [Hcode|Hcode]; try discriminate; contradiction.
  - intros request.
    destruct (deleteNote_cases request st)
      as [(c & msg & status & ->)|(k & ->)]; [reflexivity|discriminate].
Qed.

Lemma errors_leave_the_table_witness :
  In "CONFLICT" client_errors
  /\ snd (createNote (H := strict_binding) "id-2" t2 create_A [row_A])
     = [row_A].
Proof.
  assert (Hin : In "CONFLICT" client_errors) by (simpl; tauto).
  split; [exact Hin|].
  destruct (errors_leave_the_table (H := strict_binding)
              "CONFLICT" [row_A] Hin) as (Hcreate & _ & _).
  apply Hcreate. reflexivity.
Defined.

(** ** Creating, then reading *)

(** C2: when [createNote] is given an accepted payload, a title no note has
    and a fresh id, it answers the created note; [getNote] asked for that
    id right after answers the very same note, with the title and content
    of the payload, its category unless empty, its [published] flag
    ([false] when absent), and [createdAt] equal to [updatedAt]. *)
Theorem create_then_get :
  forall `{SqlBinding} uuid now request input st getRequest,
    method request = "POST" ->
    createNoteSchema_parse (input_of request) = Ok input ->
    ~ In (ci_title input) (map title st) ->
    ~ In uuid (map id st) ->
    uuid <> "" ->
    noteId_of getRequest = Some (JStr uuid) ->
    exists note st',
      createNote uuid now request st
      = (formatTRPCResponse (Created note) (has_batch request), st')
      /\ getNote getRequest st'
         = (formatTRPCResponse (Single note) (has_batch getRequest), st')
      /\ note_id note = uuid
      /\ note_title note = ci_title input
      /\ note_content note = ci_content input
      /\ note_category note
         = match ci_category input with
           | Some c => if (c =? "")%string then None else Some c
           | None => None
           end
      /\ note_published note
         = match ci_published input with Some b => b | None => false end
      /\ note_createdAt note = now
      /\ note_createdAt note = note_updatedAt note.
Proof.
  intros B uuid now request input st getRequest Hm Hp Ht Hi Hne Hget.
  exists (mapSqliteRow (new_row uuid now input)),
    (st ++ [new_row uuid now input])%list.
  assert (Et : existsb (has_title (ci_title input)) st = false).
  { apply not_true_is_false. now rewrite existsb_has_title. }
  assert (Ei : existsb (has_id uuid) st = false).
  { apply not_true_is_false. now rewrite existsb_has_id. }
  split; [|split].
  - rewrite (createNote_accepted uuid now request st input Hm Hp).
    now rewrite Et, Ei.
  - assert (Htruthy : truthy (Some (JStr uuid)) = true).
    { simpl. now destruct (String.eqb_spec uuid ""). }
    rewrite (getNote_decoded getRequest (JStr uuid) _ Hget Htruthy).
    cbn [key_of]. now rewrite select_new_row.
  - repeat split; simpl.
    + destruct (ci_category input) as [c|]; [|reflexivity].
      destruct (c =? "")%string eqn:E; simpl; [reflexivity|now rewrite E].
    + now destruct (ci_published input) as [[]|].
Qed.

Lemma create_then_get_witness :
  exists note st',
    createNote (H := strict_binding) "id-1" t1 create_A []
    = (formatTRPCResponse (Created note) (has_batch create_A), st')
    /\ getNote (H := strict_binding) get_id_1 st'
       = (formatTRPCResponse (Single note) (has_batch get_id_1), st')
    /\ note_id note = "id-1"
    /\ note_title note = ci_title input_A
    /\ note_content note = ci_content input_A
    /\ note_category note
       = match ci_category input_A with
         | Some c => if (c =? "")%string then None else Some c
         | None => None
         end
    /\ note_published note
       = match ci_published input_A with Some b => b | None => false end
    /\ note_createdAt note = t1
    /\ note_createdAt note = note_updatedAt note.
Proof.
  apply (create_then_get (H := strict_binding)
           "id-1" t1 create_A input_A [] get_id_1); try reflexivity.
  - simpl. tauto.
  - simpl. tauto.
  - discriminate.
Defined.

(** ** Updating *)

Section Updating.
Context `{SqlBinding}.

(** What the update schema accepts it hands back field by field. *)
Lemma updateNoteSchema_parse_fields v u :
  updateNoteSchema_parse v = Ok u ->
  get_prop v "title" = option_map JStr (ui_title u)
  /\ get_prop v "content" = option_map JStr (ui_content u)
  /\ get_prop v "category" = option_map JStr (ui_category u)
  /\ get_prop v "published" = option_map JBool (ui_published u).
Proof.
  destruct v as [[| | | | | |fields]|]; simpl; try discriminate.
  destruct (lookup "title" fields) as [[| | | | | |]|]; simpl;
    try discriminate;
    (destruct (lookup "content" fields) as [[| | | | | |]|]; simpl;
     try discriminate;
     (destruct (lookup "category" fields) as [[| | | | | |]|]; simpl;
      try discriminate;
      (destruct (lookup "published" fields) as [[| | | | | |]|]; simpl;
       try discriminate; intros [= <-]; simpl; auto))).
Qed.

(** Under the primary key an [UPDATE] rewrites one row. *)
Lemma map_set_where_one u now row st :
  NoDup (map id st) -> In row st ->
  map (set_where (id row) u now) st
  = map (fun r => if has_id (id row) r then set_fields u now row else r) st.
Proof.
  intros Hnd Hin. apply map_ext_in. intros r Hr. unfold set_where, has_id.
  destruct (String.eqb_spec (id r) (id row)) as [E|_]; [|reflexivity].
  now rewrite (NoDup_map_inj id st r row Hnd Hr Hin E).
Qed.

Lemma set_fields_updated_by payload u now row :
  updateNoteSchema_parse (Some payload) = Ok u ->
  updated_by payload now row (set_fields u now row).
Proof.
  intros Hp.
  destruct (updateNoteSchema_parse_fields _ _ Hp) as (Ht & Hc & Hg & Hb).
  unfold updated_by. rewrite Ht, Hc, Hg, Hb. simpl.
  repeat split.
  - now destruct (ui_title u).
  - now destruct (ui_content u).
  - destruct (ui_category u) as [c|]; simpl; [now exists c|reflexivity].
  - destruct (ui_published u) as [b|]; simpl; [now exists b|reflexivity].
Qed.

(** How [updateNote] can answer a success. *)
Lemma updateNote_success now request st note b st' :
  store_ok st ->
  updateNote now request st = (formatTRPCResponse (Single note) b, st') ->
  exists nid u row,
    method request = "POST"
    /\ params_noteId_of request = Some nid
    /\ updateNoteSchema_parse (Some (updateData_of request)) = Ok u
    /\ In row st /\ key_of nid = Some (id row)
    /\ title_taken u row st = false
    /\ note = mapSqliteRow (set_fields u now row)
    /\ st' = map (set_where (id row) u now) st.
Proof.
  intros Hok.
  destruct (String.eqb_spec (method request) "POST") as [Hm|Hm];
    [|now rewrite updateNote_wrong_method].
  destruct (truthy (params_noteId_of request)) eqn:Ht;
    [|now rewrite updateNote_missing].
  destruct (params_noteId_of request) as [nid|] eqn:Hn; [|discriminate].
  destruct (updateNoteSchema_parse (Some (updateData_of request)))
    as [u|e] eqn:Hp;
    [|now rewrite (updateNote_refused now request nid st e)].
  destruct (key_of nid) as [k|] eqn:Hk;
    [|now rewrite (updateNote_unbound now request nid st u)].
  destruct (in_dec string_dec k (map id st)) as [Hin|Hnin];
    [|now rewrite (updateNote_absent now request nid st u k)].
  apply in_map_iff in Hin as (row & <- & Hin).
  rewrite (updateNote_found now request nid st u row) by assumption.
  destruct (title_taken u row st) eqn:Hfree; [discriminate|].
  intros [= _ <- <-]. exists nid, u, row. repeat split; auto.
Qed.

End Updating.

(** C4: [updateNote] on a note of the table whose payload carries the
    title the note has never answers CONFLICT, and succeeds when the request
    is a POST with an accepted payload; when the payload carries another
    title, one that a note of the table has, the answer is CONFLICT and the
    table stays as it was. *)
Theorem update_title_rule :
  forall `{SqlBinding} now request nid row st,
    store_ok st -> In row st ->
    params_noteId_of request = Some nid ->
    key_of nid = Some (id row) ->
    (get_prop (Some (updateData_of request)) "title"
     = Some (JStr (title row)) ->
     error_code (fst (updateNote now request st)) <> Some "CONFLICT"
     /\ (forall u,
           method request = "POST" -> truthy (Some nid) = true ->
           updateNoteSchema_parse (Some (updateData_of request)) = Ok u ->
           updateNote now request st
           = (formatTRPCResponse (Single (mapSqliteRow (set_fields u now row)))
                (has_batch request),
              map (set_where (id row) u now) st)))
    /\ (forall t u,
           method request = "POST" -> truthy (Some nid) = true ->
           updateNoteSchema_parse (Some (updateData_of request)) = Ok u ->
           get_prop (Some (updateData_of request)) "title" = Some (JStr t) ->
           t <> title row -> In t (map title st) ->
           updateNote now request st
           = (formatTRPCErrorResponse "CONFLICT"
                "Note with that title already exists" 409
                (has_batch request), st)).
Proof.
  intros B now request nid row st Hok Hin Hn Hk.
  assert (Hsame : forall u,
             get_prop (Some (updateData_of request)) "title"
             = Some (JStr (title row)) ->
             updateNoteSchema_parse (Some (updateData_of request)) = Ok u ->
             title_taken u row st = false).
  { intros u Hraw Hp.
    destruct (updateNoteSchema_parse_fields _ _ Hp) as (Ht & _).
    rewrite Hraw in Ht. unfold title_taken.
    destruct (ui_title u) as [t|]; [|reflexivity].
    injection Ht as <-. now rewrite String.eqb_refl. }
  split.
  - intros Hraw. split.
    + destruct (String.eqb_spec (method request) "POST") as [Hm|Hm];
        [|now rewrite updateNote_wrong_method].
      destruct (truthy (Some nid)) eqn:Ht;
        [|rewrite updateNote_missing; [easy|easy|now rewrite Hn]].
      destruct (updateNoteSchema_parse (Some (updateData_of request)))
        as [u|e] eqn:Hp;
        [|now rewrite (updateNote_refused now request nid st e)].
      rewrite (updateNote_found now request nid st u row) by assumption.
      now rewrite (Hsame u Hraw eq_refl).
    + intros u Hm Ht Hp.
      rewrite (updateNote_found now request nid st u row) by assumption.
      now rewrite (Hsame u Hraw Hp).
  - intros t u Hm Ht Hp Hraw Hne Htaken.
    rewrite (updateNote_found now request nid st u row) by assumption.
    destruct (updateNoteSchema_parse_fields _ _ Hp) as (Hti & _).
    rewrite Hraw in Hti. unfold title_taken.
    destruct (ui_title u) as [t'|]; [|discriminate].
    injection Hti as <-.
    apply existsb_has_title in Htaken. rewrite Htaken.
    now destruct (String.eqb_spec t (title row)).
Qed.

Lemma store_AB_ok : store_ok [row_A; row_B].
Proof.
  split; simpl; repeat constructor; simpl; intuition discriminate.
Qed.

Lemma update_title_rule_witness :
  store_ok [row_A; row_B]
  /\ updateNote (H := strict_binding) t3
       (update_of "id-1" (JObj [("title", JStr "B")])) [row_A; row_B]
     = (Reply 409 false
          (Error "Note with that title already exists" "CONFLICT"),
        [row_A; row_B]).
Proof.
  split; [exact store_AB_ok|].
  destruct (update_title_rule (H := strict_binding) t3
              (update_of "id-1" (JObj [("title", JStr "B")]))
              (JStr "id-1") row_A [row_A; row_B]
              store_AB_ok (or_introl eq_refl) eq_refl eq_refl)
    as [_ Hother].
  apply (Hother "B" (mkUpdateInput (Some "B") None None None));
    try reflexivity.
  - discriminate.
  - simpl. tauto.
Defined.

(** C5: when [updateNote] answers a success on a table that keeps its
    constraints, the row whose [id] is the [noteId] of the request was
    rewritten and the others are as they were; in the rewritten row [id]
    and [createdAt] are unchanged, [updatedAt] is the time of the request,
    and each of [title], [content], [category] and [published] has its
    former value unless the payload holds the field, whose value it then
    has.  The answer carries that row.  With a payload that holds none of
    the four, [updatedAt] alone changes. *)
Theorem update_writes_payload_fields_only :
  forall `{SqlBinding} now request st note b st',
    store_ok st ->
    updateNote now request st = (formatTRPCResponse (Single note) b, st') ->
    exists nid old new,
      method request = "POST"
      /\ params_noteId_of request = Some nid
      /\ key_of nid = Some (id old)
      /\ (forall s, nid = JStr s -> id old = s)
      /\ In old st
      /\ updated_by (updateData_of request) now old new
      /\ st' = map (fun r => if has_id (id old) r then new else r) st
      /\ (forall r, In r st -> r <> old -> In r st' /\ id r <> id old)
      /\ In new st'
      /\ note = mapSqliteRow new
      /\ note_id note = id old
      /\ (get_prop (Some (updateData_of request)) "title" = undefined ->
          get_prop (Some (updateData_of request)) "content" = undefined ->
          get_prop (Some (updateData_of request)) "category" = undefined ->
          get_prop (Some (updateData_of request)) "published" = undefined ->
          new = mkRow (id old) (title old) (content old) (category old)
                  (published old) (createdAt old) now).
Proof.
  intros B now request st note b st' Hok Hup.
  destruct (updateNote_success now request st note b st' Hok Hup)
    as (nid & u & old & Hm & Hn & Hp & Hin & Hk & Hfree & -> & ->).
  exists nid, old, (set_fields u now old).
  pose proof (set_fields_updated_by _ _ now old Hp) as Hby.
  rewrite (map_set_where_one u now old st (proj1 Hok) Hin).
  split; [exact Hm|]. split; [exact Hn|]. split; [exact Hk|].
  split; [intros s ->; cbn [key_of] in Hk; congruence|].
  split; [exact Hin|]. split; [exact Hby|]. split; [reflexivity|].
  split; [|split; [|split; [reflexivity|split; [reflexivity|]]]].
  - intros r Hr Hne.
    assert (Hid : id r <> id old).
    { intros E. apply Hne.
      now apply (NoDup_map_inj id st r old (proj1 Hok)). }
    split; [|exact Hid].
    apply in_map_iff. exists r. split; [|assumption].
    unfold has_id. now destruct (String.eqb_spec (id r) (id old)).
  - apply in_map_iff. exists old. split; [|assumption].
    unfold has_id. now rewrite String.eqb_refl.
  - intros Ht Hc Hg Hb.
    destruct (updateNoteSchema_parse_fields _ _ Hp) as (Et & Ec & Eg & Eb).
    rewrite Ht in Et. rewrite Hc in Ec. rewrite Hg in Eg. rewrite Hb in Eb.
    unfold set_fields.
    destruct (ui_title u), (ui_content u), (ui_category u), (ui_published u);
      try discriminate; reflexivity.
Qed.

Lemma update_writes_payload_fields_only_witness :
  exists nid old new,
    method (update_of "id-1" (JObj [])) = "POST"
    /\ params_noteId_of (update_of "id-1" (JObj [])) = Some nid
    /\ key_of (H := strict_binding) nid = Some (id old)
    /\ (forall s, nid = JStr s -> id old = s)
    /\ In old [row_A; row_B]
    /\ updated_by (updateData_of (update_of "id-1" (JObj []))) t3 old new
    /\ [mkRow "id-1" "A" "x" None 0 t1 t3; row_B]
       = map (fun r => if has_id (id old) r then new else r) [row_A; row_B]
    /\ (forall r, In r [row_A; row_B] -> r <> old ->
        In r [mkRow "id-1" "A" "x" None 0 t1 t3; row_B] /\ id r <> id old)
    /\ In new [mkRow "id-1" "A" "x" None 0 t1 t3; row_B]
    /\ mkNote "id-1" "A" "x" None false t1 t3 = mapSqliteRow new
    /\ note_id (mkNote "id-1" "A" "x" None false t1 t3) = id old
    /\ (get_prop (Some (updateData_of (update_of "id-1" (JObj [])))) "title"
        = undefined ->
        get_prop (Some (updateData_of (update_of "id-1" (JObj [])))) "content"
        = undefined ->
        get_prop (Some (updateData_of (update_of "id-1" (JObj [])))) "category"
        = undefined ->
        get_prop (Some (updateData_of (update_of "id-1" (JObj [])))) "published"
        = undefined ->
        new = mkRow (id old) (title old) (content old) (category old)
                (published old) (createdAt old) t3).
Proof.
  apply (update_writes_payload_fields_only (H := strict_binding) t3
           (update_of "id-1" (JObj [])) [row_A; row_B]
           (mkNote "id-1" "A" "x" None false t1 t3) false
           [mkRow "id-1" "A" "x" None 0 t1 t3; row_B]).
  - exact store_AB_ok.
  - reflexivity.
Defined.

(** ** Listing *)

Lemma string_leb_trans s1 s2 s3 :
  String.leb s1 s2 = true -> String.leb s2 s3 = true ->
  String.leb s1 s3 = true.
Proof.
  unfold String.leb. revert s2 s3.
  induction s1 as [|a s1 IH]; intros [|b s2] [|c s3]; simpl; try easy.
  unfold Ascii.compare.
  destruct (N.compare_spec (N_of_ascii a) (N_of_ascii b)) as [E1|L1|G1];
    destruct (N.compare_spec (N_of_ascii b) (N_of_ascii c)) as [E2|L2|G2];
    destruct (N.compare_spec (N_of_ascii a) (N_of_ascii c)) as [E3|L3|G3];
    try easy; try lia.
  apply IH.
Qed.

Lemma string_leb_false s1 s2 :
  String.leb s1 s2 = false -> String.leb s2 s1 = true.
Proof.
  intros Hf. destruct (String.leb_total s1 s2) as [Ht|Ht]; congruence.
Qed.

Lemma insert_desc_perm r rows : Permutation (insert_desc r rows) (r :: rows).
Proof.
  induction rows as [|x rows IH]; simpl; [reflexivity|].
  destruct (String.leb (createdAt x) (createdAt r)); [reflexivity|].
  rewrite IH. apply perm_swap.
Qed.

Lemma order_by_createdAt_desc_perm rows :
  Permutation (order_by_createdAt_desc rows) rows.
Proof.
  induction rows as [|r rows IH]; simpl; [reflexivity|].
  rewrite insert_desc_perm. now constructor.
Qed.

Lemma insert_desc_sorted r rows :
  StronglySorted newer_or_same rows ->
  StronglySorted newer_or_same (insert_desc r rows).
Proof.
  induction 1 as [|x rows Hs IH Hall]; simpl.
  - repeat constructor.
  - destruct (String.leb (createdAt x) (createdAt r)) eqn:E.
    + constructor; [now constructor|].
      constructor; [exact E|].
      eapply Forall_impl; [|exact Hall].
      intros y Hy. unfold newer_or_same in *.
      now apply string_leb_trans with (s2 := createdAt x).
    + apply string_leb_false in E.
      constructor; [exact IH|].
      apply (Permutation_Forall (x := r :: rows));
        [symmetry; apply insert_desc_perm|].
      now constructor.
Qed.

Lemma order_by_createdAt_desc_sorted rows :
  StronglySorted newer_or_same (order_by_createdAt_desc rows).
Proof.
  induction rows as [|r rows IH]; simpl; [constructor|].
  now apply insert_desc_sorted.
Qed.

Lemma StronglySorted_skipn {A} (R : A -> A -> Prop) n l :
  StronglySorted R l -> StronglySorted R (skipn n l).
Proof.
  revert l. induction n as [|n IH]; intros l Hs; [exact Hs|].
  destruct l as [|a l]; [constructor|].
  apply IH. now inversion Hs.
Qed.

Lemma StronglySorted_firstn {A} (R : A -> A -> Prop) n l :
  StronglySorted R l -> StronglySorted R (firstn n l).
Proof.
  revert l. induction n as [|n IH]; intros l Hs; [constructor|].
  destruct l as [|a l]; [constructor|].
  inversion Hs as [|? ? Hs' Hall]; subst. simpl.
  constructor; [now apply IH|].
  apply Forall_forall. intros y Hy.
  rewrite Forall_forall in Hall. apply Hall.
  rewrite <- (firstn_skipn n l). apply in_or_app. now left.
Qed.

Lemma notes_sorted rows :
  StronglySorted newer_or_same rows ->
  StronglySorted newer_note (map mapSqliteRow rows).
Proof.
  induction 1 as [|r rows Hs IH Hall]; simpl; constructor; [exact IH|].
  apply Forall_map. eapply Forall_impl; [|exact Hall]. now intros y Hy.
Qed.

(** On a positive limit and a positive page the statement returns the
    slice. *)
Lemma limit_offset_slice L P rows :
  1 <= L -> 1 <= P ->
  rows_from L ((P - 1) * L) rows = slice ((P - 1) * L) (P * L) rows.
Proof.
  intros HL HP. unfold rows_from, slice.
  destruct (Z.ltb_spec L 0); [lia|].
  do 2 f_equal. lia.
Qed.

Lemma page_is_safe L P :
  1 <= L -> 1 <= P -> P * L <= max_safe_integer ->
  safe_integer P = true /\ safe_integer L = true
  /\ safe_integer ((P - 1) * L) = true.
Proof.
  unfold safe_integer, max_safe_integer. intros HL HP Hmax.
  rewrite !andb_true_iff, !Z.leb_le. nia.
Qed.

Lemma getNotes_integers `{SqlBinding} request st L P :
  limit_of request = JNum L -> page_of request = JNum P ->
  1 <= L -> 1 <= P -> P * L <= max_safe_integer ->
  getNotes request st
  = (let notes :=
       map mapSqliteRow
         (rows_from L ((P - 1) * L) (order_by_createdAt_desc st)) in
     formatTRPCResponse (Page (Z.of_nat (List.length notes)) notes)
       (has_batch request),
     st).
Proof.
  intros Hl Hp HL HP Hmax.
  destruct (page_is_safe L P HL HP Hmax) as (SP & SL & SO).
  rewrite getNotes_eq, Hl, Hp.
  now rewrite (sql_select_page_safe P L st SP SL SO).
Qed.

Lemma string_leb_refl s : String.leb s s = true.
Proof. now destruct (String.leb_total s s). Qed.

Lemma insert_desc_stable t r rows :
  filter (created_at t) (insert_desc r rows)
  = filter (created_at t) (r :: rows).
Proof.
  induction rows as [|x rows IH]; [reflexivity|].
  simpl insert_desc.
  destruct (String.leb (createdAt x) (createdAt r)) eqn:E; [reflexivity|].
  cbn [filter] in *. rewrite IH.
  destruct (created_at t r) eqn:Er; [|reflexivity].
  destruct (created_at t x) eqn:Ex; [|reflexivity].
  unfold created_at in Er, Ex. apply String.eqb_eq in Er, Ex.
  rewrite Er, Ex, string_leb_refl in E. discriminate.
Qed.

(** Rows created at the same time are listed in the order of the table. *)
Lemma order_by_createdAt_desc_stable t rows :
  filter (created_at t) (order_by_createdAt_desc rows)
  = filter (created_at t) rows.
Proof.
  induction rows as [|r rows IH]; [reflexivity|].
  simpl order_by_createdAt_desc. rewrite insert_desc_stable.
  cbn [filter]. now rewrite IH.
Qed.

(** C3, as the code has it: for a limit [L >= 1] and a page [P >= 1] (10
    and 1 when the field is absent or falsy) whose product [P * L] is a
    safe integer of JavaScript, at most 2^53 - 1, [getNotes] answers at
    most [L] notes, newest first, those of the slice [[(P-1)*L, P*L)] of
    the table ordered by [createdAt] descending (notes of one [createdAt]
    in the order of the table), and [results] is their number. *)
Theorem getNotes_returns_the_page :
  forall `{SqlBinding} st request L P,
    limit_of request = JNum L -> page_of request = JNum P ->
    1 <= L -> 1 <= P -> P * L <= max_safe_integer ->
    pagination_holds_at st request L P
    /\ Permutation (order_by_createdAt_desc st) st
    /\ StronglySorted newer_or_same (order_by_createdAt_desc st)
    /\ (forall t, filter (created_at t) (order_by_createdAt_desc st)
                  = filter (created_at t) st)
    /\ (truthy (get_prop (input_of request) "limit") = false -> L = 10)
    /\ (truthy (get_prop (input_of request) "page") = false -> P = 1).
Proof.
  intros B st request L P HL HP H1L H1P Hmax.
  split; [|split; [|split; [|split; [|split]]]].
  - eexists. split; [|split; [|split]].
    + rewrite (getNotes_integers request st L P HL HP H1L H1P Hmax).
      reflexivity.
    + rewrite length_map, limit_offset_slice by assumption.
      unfold slice. rewrite length_firstn. lia.
    + apply notes_sorted. unfold rows_from.
      destruct (L <? 0);
        [|apply StronglySorted_firstn]; apply StronglySorted_skipn;
        apply order_by_createdAt_desc_sorted.
    + now rewrite limit_offset_slice.
  - apply order_by_createdAt_desc_perm.
  - apply order_by_createdAt_desc_sorted.
  - intros t. apply order_by_createdAt_desc_stable.
  - intros Hf. unfold limit_of, js_or in HL. rewrite Hf in HL.
    destruct (get_prop (input_of request) "limit"); congruence.
  - intros Hf. unfold page_of, js_or in HP. rewrite Hf in HP.
    destruct (get_prop (input_of request) "page"); congruence.
Qed.

Lemma getNotes_returns_the_page_witness :
  pagination_holds_at (H := strict_binding) [row_A; row_B]
    second_page_of_one 1 2
  /\ getNotes (H := strict_binding) second_page_of_one [row_A; row_B]
     = (Reply 200 false (Result (Page 1 [mapSqliteRow row_A])),
        [row_A; row_B]).
Proof.
  destruct (getNotes_returns_the_page (H := strict_binding) [row_A; row_B]
              second_page_of_one 1 2 eq_refl eq_refl)
    as (Hpage & _); [lia|lia|unfold max_safe_integer; lia|].
  split; [exact Hpage|reflexivity].
Defined.

(** Two rows created at the same time are listed as the table has them. *)
Example ties_in_table_order :
  order_by_createdAt_desc [row_A; row_A2] = [row_A; row_A2]
  /\ order_by_createdAt_desc [row_A2; row_A] = [row_A2; row_A].
Proof. split; reflexivity. Qed.

(** An offset JavaScript does not compute exactly is left to the storage,
    and one that refuses it gets its error passed on as a 500. *)
Example huge_page_is_refused :
  getNotes (H := strict_binding) huge_page [row_A; row_B]
  = (Reply 500 false
       (Error "datatype mismatch: SQLITE_MISMATCH" "INTERNAL_SERVER_ERROR"),
     [row_A; row_B]).
Proof. reflexivity. Qed.

(** C3, as stated, fails at a negative limit: [LIMIT -1] is no limit, so
    every note comes back, where the slice [[0, -1)] is empty and "at most
    -1 notes" cannot be. *)
Lemma negative_limit_returns_every_note :
  limit_of negative_limit = JNum (-1)
  /\ page_of negative_limit = JNum 1
  /\ getNotes (H := strict_binding) negative_limit [row_A; row_B]
     = (Reply 200 false
          (Result (Page 2 [mapSqliteRow row_B; mapSqliteRow row_A])),
        [row_A; row_B])
  /\ slice ((1 - 1) * -1) (1 * -1) (order_by_createdAt_desc [row_A; row_B])
     = []
  /\ ~ pagination_holds_at (H := strict_binding) [row_A; row_B]
        negative_limit (-1) 1.
Proof.
  repeat split.
  intros (notes & Hget & Hle & _). lia.
Qed.

(** C8: [getNotes] never answers BAD_REQUEST: the filter schema is never
    applied, so no [ZodError] reaches the [catch] that would map it.  With
    [{ limit: "abc" }] the text goes to the statement as it is, and the
    answer is what the storage makes of it: rows, or its refusal as a
    500. *)
Theorem getNotes_never_answers_bad_request :
  forall `{SqlBinding} st,
    limit_of text_limit = JStr "abc"
    /\ getNotes text_limit st
       = match page_other (JNum 1) (JStr "abc") st with
         | Some rows =>
             (formatTRPCResponse
                (Page (Z.of_nat (List.length (map mapSqliteRow rows)))
                   (map mapSqliteRow rows)) false, st)
         | None =>
             (formatTRPCErrorResponse "INTERNAL_SERVER_ERROR"
                (message_or (page_refusal (JNum 1) (JStr "abc") st)
                   "An unexpected error occurred") 500 false, st)
         end
    /\ forall request,
        error_code (fst (getNotes request st)) <> Some "BAD_REQUEST"
        /\ (error_code (fst (getNotes request st)) = None
            \/ error_code (fst (getNotes request st))
               = Some "INTERNAL_SERVER_ERROR").
Proof.
  intros B st. split; [reflexivity|]. split.
  - rewrite getNotes_eq.
    change (page_of text_limit) with (JNum 1).
    change (limit_of text_limit) with (JStr "abc").
    unfold sql_select_page. cbn [js_offset has_batch text_limit list_notes get].
    destruct (page_other (JNum 1) (JStr "abc") st); [reflexivity|].
    now rewrite catch_getNotes_other by apply page_refusal_other.
  - intros request. rewrite getNotes_eq.
    destruct (sql_select_page (page_of request) (limit_of request) st)
      as [[rows|e] st'] eqn:E.
    + split; [discriminate|now left].
    + apply sql_select_page_throws in E as ->.
      rewrite catch_getNotes_other by apply page_refusal_other.
      split; [discriminate|now right].
Qed.

(** ** The scenario of the specification *)

Example scenario_runs :
  serve (H := strict_binding) scenario [] =
  ([ Reply 200 false
       (Result (Created (mkNote "id-1" "A" "x" None false t1 t1)));
     Reply 409 false
       (Error "Note with that title already exists" "CONFLICT");
     Reply 200 false
       (Result (Single (mkNote "id-1" "B" "x" None false t1 t2)));
     Reply 200 false
       (Result (Created (mkNote "id-3" "A" "z" None false t3 t3)));
     Reply 200 false
       (Result (Page 1 [mkNote "id-3" "A" "z" None false t3 t3]));
     Reply 200 false (Result Deleted);
     Reply 404 false (Error "Note with that ID not found" "NOT_FOUND") ],
   [mkRow "id-3" "A" "z" None 0 t3 t3]).
Proof. reflexivity. Qed.

(** ** Every answer and every change has one of a few shapes *)

Section Shapes.
Context `{SqlBinding}.

Lemma internal_error_coded b e : well_coded b (internal_error e b).
Proof. simpl. split; [|reflexivity]. do 4 right. now left. Qed.

Lemma catch_write_coded b e : well_coded b (catch_write b e).
Proof.
  unfold catch_write.
  destruct (name e =? "ZodError")%string; [simpl; auto|].
  destruct (is_unique_failure e); [simpl; auto|].
  apply internal_error_coded.
Qed.

Lemma createNote_shape uuid now request st :
  well_coded (has_batch request) (fst (createNote uuid now request st))
  /\ table_step uuid now st (snd (createNote uuid now request st)).
Proof.
  destruct (String.eqb_spec (method request) "POST") as [Hm|Hm].
  - destruct (createNoteSchema_parse (input_of request)) as [input|e] eqn:Hp.
    + rewrite (createNote_accepted uuid now request st input Hm Hp).
      destruct (existsb (has_title (ci_title input)) st) eqn:Et;
        [simpl; auto 10 using step_none|].
      destruct (existsb (has_id uuid) st) eqn:Ei;
        [simpl; auto 10 using step_none|].
      simpl. split; [auto|]. now apply step_insert.
    + destruct (createNote_refused uuid now request st e Hm Hp)
        as (msg & -> & _).
      simpl. auto 10 using step_none.
  - rewrite createNote_wrong_method by assumption.
    simpl. auto 10 using step_none.
Qed.

Lemma updateNote_shape uuid now request st :
  well_coded (has_batch request) (fst (updateNote now request st))
  /\ table_step uuid now st (snd (updateNote now request st)).
Proof.
  set (P := fun p : Response * Store =>
              well_coded (has_batch request) (fst p)
              /\ table_step uuid now st (snd p)).
  change (P (updateNote now request st)).
  assert (Hsame : forall r, well_coded (has_batch request) r -> P (r, st)).
  { intros r Hr. split; [exact Hr|apply step_none]. }
  assert (Hcatch : forall e, P (catch_write (has_batch request) e, st)).
  { intros e. apply Hsame, catch_write_coded. }
  destruct (String.eqb_spec (method request) "POST") as [Hm|Hm];
    [|rewrite updateNote_wrong_method by assumption;
      apply Hsame; simpl; auto 10].
  destruct (truthy (params_noteId_of request)) eqn:Ht;
    [|rewrite updateNote_missing by assumption; apply Hsame; simpl; auto 10].
  destruct (params_noteId_of request) as [nid|] eqn:Hn; [|discriminate].
  unfold updateNote, handler.
  rewrite (updateNote_try_decoded now request nid st Hm Hn Ht).
  unfold bind at 1, lift.
  destruct (updateNoteSchema_parse _) as [u|e]; [|apply Hcatch].
  unfold bind at 1. rewrite sql_select_by_id_eq.
  destruct (key_of nid) as [k|] eqn:Hk; [|apply Hcatch].
  destruct (List.length (filter (has_id k) st) =? 0)%nat;
    [apply Hsame; simpl; auto 10|].
  unfold bind at 1.
  match goal with
  | |- context [match ?check st with _ => _ end] =>
      destruct (check st) as [[taken|e] st1] eqn:Hc
  end;
    apply update_check_reads in Hc; subst st1; [|apply Hcatch].
  destruct taken; [apply Hsame; simpl; auto 10|].
  unfold bind at 1.
  destruct (sql_update u now nid st) as [[[]|e] st1] eqn:Hu.
  - apply sql_update_inv in Hu as (k' & _ & ->).
    unfold bind at 1. rewrite sql_select_by_id_eq, Hk.
    unfold bind, one, P.
    destruct (filter (has_id k) _) as [|r [|r' rows]]; simpl;
      (split; [auto 10|apply step_update]).
  - apply sql_update_throw in Hu as [-> _]. apply Hcatch.
Qed.

Lemma deleteNote_shape uuid now request st :
  well_coded (has_batch request) (fst (deleteNote request st))
  /\ table_step uuid now st (snd (deleteNote request st)).
Proof.
  destruct (String.eqb_spec (method request) "POST") as [Hm|Hm].
  - destruct (truthy (noteId_of request)) eqn:Ht.
    + destruct (noteId_of request) as [nid|] eqn:Hn; [|discriminate].
      rewrite (deleteNote_decoded request nid st Hm Hn Ht).
      destruct (key_of nid) as [k|];
        [|split; [apply internal_error_coded|apply step_none]].
      destruct (existsb (has_id k) st); simpl.
      * split; [auto|apply step_delete].
      * auto 10 using step_none.
    + rewrite deleteNote_missing by assumption. simpl. auto 10 using step_none.
  - rewrite deleteNote_wrong_method by assumption.
    simpl. auto 10 using step_none.
Qed.

Lemma getNote_shape request st :
  well_coded (has_batch request) (fst (getNote request st)).
Proof.
  destruct (truthy (noteId_of request)) eqn:Ht.
  - destruct (noteId_of request) as [nid|] eqn:Hn; [|discriminate].
    rewrite (getNote_decoded request nid st Hn Ht).
    destruct (key_of nid) as [k|]; [|apply internal_error_coded].
    destruct (filter (has_id k) st); simpl; auto 10.
  - rewrite getNote_missing by assumption. simpl. auto 10.
Qed.

Lemma getNotes_shape request st :
  well_coded (has_batch request) (fst (getNotes request st)).
Proof.
  rewrite getNotes_eq.
  destruct (sql_select_page (page_of request) (limit_of request) st)
    as [[rows|e] st'] eqn:E; [simpl; auto|].
  apply sql_select_page_throws in E as ->.
  rewrite catch_getNotes_other by apply page_refusal_other.
  apply internal_error_coded.
Qed.

Lemma fetch_changes uuid now request st :
  table_step uuid now st (snd (fetch uuid now request st)).
Proof.
  unfold fetch.
  repeat match goal with
         | |- context [if ?c then _ else _] => destruct c
         end;
    try apply createNote_shape; try apply updateNote_shape;
    try apply deleteNote_shape; try apply step_none.
  - rewrite getNote_reads. apply step_none.
  - rewrite getNotes_reads. apply step_none.
Qed.

Lemma fetch_answers uuid now request st :
  match fst (fetch uuid now request st) with
  | Preflight => method request = "OPTIONS"
  | NotFound =>
      method request <> "OPTIONS" /\ ~ In (pathname request) operation_paths
  | r =>
      method request <> "OPTIONS" /\ In (pathname request) operation_paths
      /\ well_coded (has_batch request) r
  end.
Proof.
  pattern (fst (fetch uuid now request st)).
  match goal with |- ?F _ => set (Q := F) end.
  assert (Hreply : forall r p,
             method request <> "OPTIONS" ->
             pathname request = p -> In p operation_paths ->
             well_coded (has_batch request) r -> Q r).
  { intros [status b e| |] p Hm <- Hp Hw; simpl in Hw; try contradiction.
    unfold Q. auto. }
  unfold fetch.
  destruct (String.eqb_spec (method request) "OPTIONS") as [Hm|Hm];
    [exact Hm|].
  lazy zeta.
  destruct (String.eqb_spec (pathname request) "/api/trpc/createNote") as [E|N1].
  { apply (Hreply _ _ Hm E); [simpl; tauto|apply (createNote_shape uuid now)]. }
  destruct (String.eqb_spec (pathname request) "/api/trpc/updateNote") as [E|N2].
  { apply (Hreply _ _ Hm E); [simpl; tauto|apply (updateNote_shape uuid now)]. }
  destruct (String.eqb_spec (pathname request) "/api/trpc/deleteNote") as [E|N3].
  { apply (Hreply _ _ Hm E); [simpl; tauto|apply (deleteNote_shape uuid now)]. }
  destruct (String.eqb_spec (pathname request) "/api/trpc/getNote") as [E|N4].
  { apply (Hreply _ _ Hm E); [simpl; tauto|apply getNote_shape]. }
  destruct (String.eqb_spec (pathname request) "/api/trpc/getNotes") as [E|N5].
  { apply (Hreply _ _ Hm E); [simpl; tauto|apply getNotes_shape]. }
  destruct (String.eqb_spec (pathname request) "/api/trpc/getHello") as [E|N6].
  { apply (Hreply _ _ Hm E); [simpl; tauto|simpl; auto]. }
  unfold Q. simpl. split; [assumption|]. intuition congruence.
Qed.

End Shapes.

(** ** The router and the envelope *)

(** X1: the object's router answers the preflight exactly to OPTIONS, and
    the plain 404 exactly to another method on a path that is none of its
    six; in both cases the table is not touched. *)
Theorem router_preflight_and_not_found :
  forall `{SqlBinding} uuid now request st,
    (fst (fetch uuid now request st) = Preflight
     <-> method request = "OPTIONS")
    /\ (fst (fetch uuid now request st) = NotFound
        <-> method request <> "OPTIONS"
            /\ ~ In (pathname request) operation_paths)
    /\ (method request = "OPTIONS"
        \/ ~ In (pathname request) operation_paths ->
        snd (fetch uuid now request st) = st).
Proof.
  intros B uuid now request st.
  pose proof (fetch_answers uuid now request st) as Hans.
  assert (Hopt : method request = "OPTIONS" ->
                 fetch uuid now request st = (Preflight, st)).
  { intros Hm. unfold fetch. now rewrite Hm. }
  assert (Hnf : method request <> "OPTIONS" ->
                ~ In (pathname request) operation_paths ->
                fetch uuid now request st = (NotFound, st)).
  { intros Hm Hp. unfold fetch.
    destruct (String.eqb_spec (method request) "OPTIONS"); [contradiction|].
    lazy zeta.
    repeat match goal with
           | |- context [String.eqb (pathname request) ?p] =>
               destruct (String.eqb_spec (pathname request) p) as [E|_];
               [exfalso; apply Hp; rewrite E; simpl; tauto|]
           end.
    reflexivity. }
  split; [|split].
  - split; [|intros Hm; now rewrite (Hopt Hm)].
    intros E. now rewrite E in Hans.
  - split; [|intros [Hm Hp]; now rewrite (Hnf Hm Hp)].
    intros E. now rewrite E in Hans.
  - intros [Hm|Hp]; [now rewrite (Hopt Hm)|].
    destruct (String.eqb_spec (method request) "OPTIONS") as [Hm|Hm];
      [now rewrite (Hopt Hm)|now rewrite (Hnf Hm Hp)].
Qed.

Lemma router_preflight_and_not_found_witness :
  snd (fetch (H := strict_binding) "id-3" t3
         (post "/api/trpc/dropNotes" false (JObj [])) [row_A; row_B])
  = [row_A; row_B].
Proof.
  destruct (router_preflight_and_not_found (H := strict_binding) "id-3" t3
              (post "/api/trpc/dropNotes" false (JObj [])) [row_A; row_B])
    as (_ & _ & Hsame).
  apply Hsame. right. simpl. intuition discriminate.
Defined.

(** X2: whatever the request, an answer of the router in the envelope is a
    result with status 200 or an error whose status is the one of its code
    (400, 409, 404, 405, 500 for BAD_REQUEST, CONFLICT, NOT_FOUND,
    METHOD_NOT_SUPPORTED, INTERNAL_SERVER_ERROR), and it is batched exactly
    when the request has the [batch] parameter. *)
Theorem answers_follow_the_taxonomy :
  forall `{SqlBinding} uuid now request st,
    match fst (fetch uuid now request st) with
    | Reply status b (Result _) => status = 200 /\ b = has_batch request
    | Reply status b (Error _ code) =>
        In (code, status) taxonomy /\ b = has_batch request
    | Preflight | NotFound => True
    end.
Proof.
  intros B uuid now request st.
  pose proof (fetch_answers uuid now request st) as Hans.
  destruct (fst (fetch uuid now request st)) as [status b [d|msg code]| |];
    try exact I; now destruct Hans as (_ & _ & Hw).
Qed.

(** ** Rows over time *)

Lemma set_where_createdAt `{SqlBinding} k u now r :
  createdAt (set_where k u now r) = createdAt r.
Proof. unfold set_where. now destruct (has_id k r). Qed.

(** X3: after any request, a row of the table either has the [id] and the
    [createdAt] of a row that was there before, or it is the row this
    request created: its [id] is the fresh one, unknown to the table
    before, and both its timestamps are the time of the request.  The table
    grows by one row at most. *)
Theorem rows_keep_id_and_createdAt :
  forall `{SqlBinding} uuid now request st r',
    In r' (snd (fetch uuid now request st)) ->
    ((exists r, In r st /\ id r = id r' /\ createdAt r = createdAt r')
     \/ (id r' = uuid /\ createdAt r' = now /\ updatedAt r' = now
         /\ ~ In uuid (map id st)))
    /\ (List.length (snd (fetch uuid now request st))
        <= S (List.length st))%nat.
Proof.
  intros B uuid now request st r' Hin.
  destruct (fetch_changes uuid now request st) as [|input Hid _|k u|k].
  - split; [left; now exists r'|lia].
  - split; [|rewrite length_app; simpl; lia].
    apply in_app_or in Hin as [Hin|[<-|[]]]; [left; now exists r'|].
    right. repeat split.
    rewrite <- existsb_has_id, Hid. discriminate.
  - split; [|rewrite length_map; lia].
    apply in_map_iff in Hin as (r & <- & Hin). left. exists r.
    now rewrite set_where_id, set_where_createdAt.
  - split.
    + apply filter_In in Hin as [Hin _]. left. now exists r'.
    + pose proof (filter_length_le (fun r => negb (has_id k r)) st). lia.
Qed.

Lemma rows_keep_id_and_createdAt_witness :
  In (mkRow "id-1" "A" "x" None 0 t1 t3)
    (snd (fetch (H := strict_binding) "" t3
            (update_of "id-1" (JObj [])) [row_A; row_B]))
  /\ exists r, In r [row_A; row_B] /\ id r = "id-1" /\ createdAt r = t1.
Proof.
  assert (Hin : In (mkRow "id-1" "A" "x" None 0 t1 t3)
                  (snd (fetch (H := strict_binding) "" t3
                          (update_of "id-1" (JObj [])) [row_A; row_B])))
    by (simpl; tauto).
  split; [exact Hin|].
  destruct (rows_keep_id_and_createdAt (H := strict_binding) "" t3
              (update_of "id-1" (JObj [])) [row_A; row_B] _ Hin)
    as [[Hold|(Hnew & _)] _]; [exact Hold|discriminate Hnew].
Defined.

Lemma table_step_flags `{SqlBinding} uuid now st st' :
  table_step uuid now st st' -> Forall flag_ok st -> Forall flag_ok st'.
Proof.
  intros [|input _ _|k u|k] Hall.
  - exact Hall.
  - apply Forall_app. split; [exact Hall|]. constructor; [|constructor].
    unfold flag_ok. simpl. destruct (ci_published input) as [[]|]; auto.
  - apply Forall_map. eapply Forall_impl; [|exact Hall].
    intros r Hr. unfold flag_ok, set_where in *.
    destruct (has_id k r); [|exact Hr]. simpl.
    destruct (ui_published u) as [[]|]; auto.
  - apply Forall_forall. intros r Hr. apply filter_In in Hr as [Hr _].
    rewrite Forall_forall in Hall. now apply Hall.
Qed.

(** X4: whatever requests were served since the table was created, no two
    rows have the same [id], and every stored [published] is 0 or 1, so the
    boolean of the note [mapSqliteRow] makes tells which. *)
Theorem ids_unique_and_flags_boolean :
  forall `{SqlBinding} st,
    reachable st ->
    NoDup (map id st)
    /\ Forall flag_ok st
    /\ (forall r, In r st ->
          published r = if note_published (mapSqliteRow r) then 1 else 0).
Proof.
  intros B st Hreach.
  assert (Hflags : Forall flag_ok st).
  { induction Hreach as [|uuid now request st _ IH|uuid now request st _ IH
                         |now request st _ IH|request st _ IH].
    - constructor.
    - exact (table_step_flags _ _ _ _ (fetch_changes uuid now request st) IH).
    - exact (table_step_flags _ _ _ _
               (proj2 (createNote_shape uuid now request st)) IH).
    - exact (table_step_flags _ _ _ _
               (proj2 (updateNote_shape "" now request st)) IH).
    - exact (table_step_flags _ _ _ _
               (proj2 (deleteNote_shape "" "" request st)) IH). }
  split; [apply (reachable_ok st Hreach)|]. split; [exact Hflags|].
  intros r Hr. rewrite Forall_forall in Hflags.
  destruct (Hflags r Hr) as [E|E]; simpl; now rewrite E.
Qed.

Lemma ids_unique_and_flags_boolean_witness :
  reachable (H := strict_binding) [row_A]
  /\ NoDup (map id [row_A]) /\ Forall flag_ok [row_A].
Proof.
  assert (Hr : reachable (H := strict_binding) [row_A]).
  { change [row_A]
      with (snd (createNote (H := strict_binding) "id-1" t1 create_A [])).
    apply reach_create, reach_init. }
  split; [exact Hr|].
  destruct (ids_unique_and_flags_boolean (H := strict_binding) [row_A] Hr)
    as (Hids & Hflags & _).
  split; assumption.
Defined.

(** ** Looking up, deleting *)

Lemma nonempty_truthy k : k <> "" -> truthy (Some (JStr k)) = true.
Proof. intros Hk. simpl. now destruct (String.eqb_spec k ""). Qed.

(** X5: on a table that keeps its primary key, [getNote] asked for a
    non-empty text id answers the note of the row with that id when there
    is one, NOT_FOUND (404) when there is none, and never touches the
    table. *)
Theorem getNote_finds_by_id :
  forall `{SqlBinding} request k st,
    NoDup (map id st) ->
    noteId_of request = Some (JStr k) -> k <> "" ->
    (forall row, In row st -> id row = k ->
        getNote request st
        = (formatTRPCResponse (Single (mapSqliteRow row)) (has_batch request),
           st))
    /\ (~ In k (map id st) ->
        getNote request st
        = (formatTRPCErrorResponse "NOT_FOUND" "Note with that ID not found"
             404 (has_batch request), st)).
Proof.
  intros B request k st Hnd Hn Hk.
  rewrite (getNote_decoded request (JStr k) st Hn (nonempty_truthy k Hk)).
  cbn [key_of]. split.
  - intros row Hin <-. now rewrite (filter_has_id_one st row Hnd Hin).
  - intros Hnin. now rewrite filter_has_id_nil.
Qed.

Lemma getNote_finds_by_id_witness :
  getNote (H := strict_binding) get_id_1 [row_A; row_B]
  = (formatTRPCResponse (Single (mapSqliteRow row_A)) (has_batch get_id_1),
     [row_A; row_B]).
Proof.
  destruct (getNote_finds_by_id (H := strict_binding) get_id_1 "id-1"
              [row_A; row_B] (proj1 store_AB_ok) eq_refl)
    as [Hfound _]; [discriminate|].
  apply Hfound; [simpl; tauto|reflexivity].
Defined.

Lemma filter_other_ids k st :
  ~ In k (map id (filter (fun r => negb (has_id k r)) st)).
Proof.
  rewrite in_map_iff. intros (r & E & Hin).
  apply filter_In in Hin as [_ Hk]. unfold has_id in Hk.
  rewrite E, String.eqb_refl in Hk. discriminate.
Qed.

Lemma filter_others_iff row st :
  NoDup (map id st) -> In row st ->
  forall r, In r (filter (fun r => negb (has_id (id row) r)) st)
            <-> In r st /\ r <> row.
Proof.
  intros Hi Hin r. rewrite filter_In. unfold has_id. split.
  - intros [Hr Hne]. split; [exact Hr|]. intros ->.
    now rewrite String.eqb_refl in Hne.
  - intros [Hr Hne]. split; [exact Hr|].
    destruct (String.eqb_spec (id r) (id row)) as [E|_]; [|reflexivity].
    destruct Hne. now apply (NoDup_map_inj id st r row Hi).
Qed.

Lemma filter_drops_title row st :
  store_ok st -> In row st ->
  ~ In (title row) (map title (filter (fun r => negb (has_id (id row) r)) st)).
Proof.
  intros [Hi Ht] Hin. rewrite in_map_iff. intros (r & E & Hr).
  apply (filter_others_iff row st Hi Hin) in Hr as [Hr Hne].
  apply Hne. now apply (NoDup_map_inj title st r row Ht).
Qed.

Lemma deleteNote_of_note `{SqlBinding} request row st :
  In row st -> method request = "POST" ->
  noteId_of request = Some (JStr (id row)) -> id row <> "" ->
  deleteNote request st
  = (formatTRPCResponse Deleted (has_batch request),
     filter (fun r => negb (has_id (id row) r)) st).
Proof.
  intros Hin Hm Hn Hk.
  rewrite (deleteNote_decoded request (JStr (id row)) st Hm Hn
             (nonempty_truthy _ Hk)).
  cbn [key_of].
  assert (E : existsb (has_id (id row)) st = true).
  { apply existsb_has_id. now apply in_map. }
  now rewrite E.
Qed.

(** X6: on a table that keeps its constraints, [deleteNote] sent by POST
    with the id of a note answers a success and removes that note and no
    other: the rows left are the others, in their order, and neither the id
    nor the title of the note is in the table any more. *)
Theorem deleteNote_removes_one_note :
  forall `{SqlBinding} request row st,
    store_ok st -> In row st ->
    method request = "POST" ->
    noteId_of request = Some (JStr (id row)) -> id row <> "" ->
    exists st',
      deleteNote request st
      = (formatTRPCResponse Deleted (has_batch request), st')
      /\ st' = filter (fun r => negb (has_id (id row) r)) st
      /\ (forall r, In r st' <-> In r st /\ r <> row)
      /\ S (List.length st') = List.length st
      /\ ~ In (id row) (map id st')
      /\ ~ In (title row) (map title st')
      /\ store_ok st'.
Proof.
  intros B request row st Hok Hin Hm Hn Hk.
  exists (filter (fun r => negb (has_id (id row) r)) st).
  split; [now apply deleteNote_of_note|]. split; [reflexivity|].
  split; [apply (filter_others_iff row st (proj1 Hok) Hin)|].
  split; [|split; [apply filter_other_ids|split]].
  - pose proof (filter_length (has_id (id row)) st) as Hlen.
    rewrite (filter_has_id_one st row (proj1 Hok) Hin) in Hlen.
    simpl in Hlen. rewrite <- Hlen. f_equal.
  - now apply filter_drops_title.
  - destruct Hok. split; now apply filter_keeps_key.
Qed.

Lemma deleteNote_removes_one_note_witness :
  exists st',
    deleteNote (H := strict_binding) delete_id_1 [row_A; row_B]
    = (formatTRPCResponse Deleted (has_batch delete_id_1), st')
    /\ st' = filter (fun r => negb (has_id (id row_A) r)) [row_A; row_B]
    /\ (forall r, In r st' <-> In r [row_A; row_B] /\ r <> row_A)
    /\ S (List.length st') = List.length [row_A; row_B]
    /\ ~ In (id row_A) (map id st')
    /\ ~ In (title row_A) (map title st')
    /\ store_ok st'.
Proof.
  apply (deleteNote_removes_one_note (H := strict_binding) delete_id_1 row_A
           [row_A; row_B] store_AB_ok).
  - simpl. tauto.
  - reflexivity.
  - reflexivity.
  - discriminate.
Defined.

(** X7: deletion is final: after a successful [deleteNote] of a note,
    [getNote] asked for its id answers NOT_FOUND, and a [createNote] with
    the title the note had is accepted again. *)
Theorem deleted_note_is_gone_and_title_free :
  forall `{SqlBinding} request row st,
    store_ok st -> In row st ->
    method request = "POST" ->
    noteId_of request = Some (JStr (id row)) -> id row <> "" ->
    forall st', st' = snd (deleteNote request st) ->
      (forall getRequest,
          noteId_of getRequest = Some (JStr (id row)) ->
          getNote getRequest st'
          = (formatTRPCErrorResponse "NOT_FOUND"
               "Note with that ID not found" 404 (has_batch getRequest), st'))
      /\ (forall uuid now createRequest input,
             method createRequest = "POST" ->
             createNoteSchema_parse (input_of createRequest) = Ok input ->
             ci_title input = title row ->
             ~ In uuid (map id st') ->
             createNote uuid now createRequest st'
             = (formatTRPCResponse
                  (Created (mapSqliteRow (new_row uuid now input)))
                  (has_batch createRequest),
                (st' ++ [new_row uuid now input])%list)).
Proof.
  intros B request row st Hok Hin Hm Hn Hk st' ->.
  rewrite (deleteNote_of_note request row st Hin Hm Hn Hk). simpl snd.
  split.
  - intros getRequest Hget.
    rewrite (getNote_decoded getRequest (JStr (id row)) _ Hget
               (nonempty_truthy _ Hk)).
    cbn [key_of]. rewrite filter_has_id_nil; [reflexivity|].
    apply filter_other_ids.
  - intros uuid now createRequest input Hpost Hp Ht Hu.
    rewrite (createNote_accepted uuid now createRequest _ input Hpost Hp).
    match goal with
    | |- context [existsb (has_title ?t) ?l] =>
        assert (E1 : existsb (has_title t) l = false)
    end.
    { apply not_true_is_false. rewrite existsb_has_title, Ht.
      now apply filter_drops_title. }
    match goal with
    | |- context [existsb (has_id uuid) ?l] =>
        assert (E2 : existsb (has_id uuid) l = false)
    end.
    { apply not_true_is_false. now rewrite existsb_has_id. }
    now rewrite E1, E2.
Qed.

Lemma deleted_note_is_gone_and_title_free_witness :
  getNote (H := strict_binding) get_id_1 [row_B]
  = (formatTRPCErrorResponse "NOT_FOUND" "Note with that ID not found" 404
       (has_batch get_id_1), [row_B])
  /\ createNote (H := strict_binding) "id-3" t3 create_A [row_B]
     = (formatTRPCResponse
          (Created (mapSqliteRow (new_row "id-3" t3 input_A)))
          (has_batch create_A),
        ([row_B] ++ [new_row "id-3" t3 input_A])%list).
Proof.
  destruct (deleted_note_is_gone_and_title_free (H := strict_binding)
              delete_id_1 row_A [row_A; row_B] store_AB_ok
              (or_introl eq_refl) eq_refl eq_refl)
    with (st' := [row_B]) as [Hget Hcreate];
    [discriminate|reflexivity|].
  split.
  - apply Hget. reflexivity.
  - apply Hcreate; try reflexivity. simpl. intuition discriminate.
Defined.

(** ** Updating, then reading; ids that are not there *)

(** X8: on a table that keeps its constraints, when [updateNote] answers a
    note, [getNote] asked right after for the [noteId] of the update
    answers that very note. *)
Theorem update_then_get :
  forall `{SqlBinding} now request st note b st' getRequest,
    store_ok st ->
    updateNote now request st = (formatTRPCResponse (Single note) b, st') ->
    noteId_of getRequest = params_noteId_of request ->
    getNote getRequest st'
    = (formatTRPCResponse (Single note) (has_batch getRequest), st').
Proof.
  intros B now request st note b st' getRequest Hok Hup Hget.
  destruct (truthy (params_noteId_of request)) eqn:Ht.
  - destruct (updateNote_success now request st note b st' Hok Hup)
      as (nid & u & row & Hm & Hn & Hp & Hin & Hk & _ & -> & ->).
    rewrite Hn in Hget, Ht.
    rewrite (getNote_decoded getRequest nid _ Hget Ht), Hk.
    now rewrite (select_after_update (id row) u now st row (proj1 Hok) Hin).
  - destruct (String.eqb_spec (method request) "POST") as [Hm|Hm].
    + now rewrite updateNote_missing in Hup.
    + now rewrite updateNote_wrong_method in Hup.
Qed.

Lemma update_then_get_witness :
  getNote (H := strict_binding) get_id_1
    [mkRow "id-1" "C" "x" None 0 t1 t3; row_B]
  = (formatTRPCResponse (Single (mkNote "id-1" "C" "x" None false t1 t3))
       (has_batch get_id_1),
     [mkRow "id-1" "C" "x" None 0 t1 t3; row_B]).
Proof.
  apply (update_then_get (H := strict_binding) t3
           (update_of "id-1" (JObj [("title", JStr "C")]))
           [row_A; row_B] (mkNote "id-1" "C" "x" None false t1 t3) false
           [mkRow "id-1" "C" "x" None 0 t1 t3; row_B] get_id_1).
  - exact store_AB_ok.
  - reflexivity.
  - reflexivity.
Defined.

(** X9: [updateNote] and [deleteNote], sent by POST with a text id that no
    row of the table has, answer NOT_FOUND (404) and leave the table as it
    was; for [updateNote] this is so once the payload passed the schema,
    whatever it asks for. *)
Theorem unknown_id_is_not_found :
  forall `{SqlBinding} now request k st,
    method request = "POST" -> k <> "" -> ~ In k (map id st) ->
    (params_noteId_of request = Some (JStr k) ->
     forall u,
       updateNoteSchema_parse (Some (updateData_of request)) = Ok u ->
       updateNote now request st
       = (formatTRPCErrorResponse "NOT_FOUND" "Note with that ID not found"
            404 (has_batch request), st))
    /\ (noteId_of request = Some (JStr k) ->
        deleteNote request st
        = (formatTRPCErrorResponse "NOT_FOUND" "Note with that ID not found"
             404 (has_batch request), st)).
Proof.
  intros B now request k st Hm Hk Hnin. split.
  - intros Hn u Hp.
    now apply (updateNote_absent now request (JStr k) st u k Hm Hn
                 (nonempty_truthy k Hk) Hp).
  - intros Hn.
    rewrite (deleteNote_decoded request (JStr k) st Hm Hn
               (nonempty_truthy k Hk)).
    cbn [key_of].
    assert (E : existsb (has_id k) st = false).
    { apply not_true_is_false. now rewrite existsb_has_id. }
    now rewrite E.
Qed.

Lemma unknown_id_is_not_found_witness :
  deleteNote (H := strict_binding) delete_id_1 [row_B]
  = (formatTRPCErrorResponse "NOT_FOUND" "Note with that ID not found" 404
       (has_batch delete_id_1), [row_B]).
Proof.
  destruct (unknown_id_is_not_found (H := strict_binding) t3 delete_id_1
              "id-1" [row_B] eq_refl) as [_ Hdel].
  - discriminate.
  - simpl. intuition discriminate.
  - apply Hdel. reflexivity.
Defined.

(** ** Creating *)

(** X10: [createNote] never rewrites or removes a row: the table after it
    is the table before it, followed by at most one row, and that row has
    the fresh id, the time of the request as both timestamps, and the title
    and content of the payload. *)
Theorem createNote_only_appends :
  forall `{SqlBinding} uuid now request st,
    exists added,
      snd (createNote uuid now request st) = (st ++ added)%list
      /\ (added = []
          \/ exists input,
               createNoteSchema_parse (input_of request) = Ok input
               /\ added = [new_row uuid now input]
               /\ id (new_row uuid now input) = uuid
               /\ title (new_row uuid now input) = ci_title input
               /\ content (new_row uuid now input) = ci_content input
               /\ createdAt (new_row uuid now input) = now
               /\ updatedAt (new_row uuid now input) = now).
Proof.
  intros B uuid now request st.
  destruct (createNote_cases uuid now request st)
    as [(code & msg & status & ->)|(input & _ & Hp & _ & _ & ->)].
  - exists []. split; [now rewrite app_nil_r|now left].
  - exists [new_row uuid now input]. split; [reflexivity|].
    right. exists input. repeat split. exact Hp.
Qed.

(** X11: the [catch] of the [INSERT] takes every refusal of the table for a
    title conflict: a [createNote] whose title is free but whose fresh id
    is already the id of a row answers CONFLICT (409) with the message of
    a taken title, and inserts nothing. *)
Theorem id_collision_is_reported_as_title_conflict :
  forall `{SqlBinding} uuid now request input st,
    method request = "POST" ->
    createNoteSchema_parse (input_of request) = Ok input ->
    ~ In (ci_title input) (map title st) ->
    In uuid (map id st) ->
    createNote uuid now request st
    = (formatTRPCErrorResponse "CONFLICT"
         "Note with that title already exists" 409 (has_batch request), st).
Proof.
  intros B uuid now request input st Hm Hp Ht Hi.
  rewrite (createNote_accepted uuid now request st input Hm Hp).
  apply existsb_has_id in Hi. rewrite Hi. now rewrite orb_true_r.
Qed.

Lemma id_collision_is_reported_as_title_conflict_witness :
  createNote (H := strict_binding) "id-2" t3 create_A [row_B]
  = (formatTRPCErrorResponse "CONFLICT"
       "Note with that title already exists" 409 (has_batch create_A),
     [row_B]).
Proof.
  apply (id_collision_is_reported_as_title_conflict (H := strict_binding)
           "id-2" t3 create_A input_A [row_B]); try reflexivity.
  - simpl. intuition discriminate.
  - simpl. tauto.
Defined.

(** X12: [createNote] by POST answers BAD_REQUEST (400) in two ways: with
    "Invalid request format" when the decoded input is falsy or no object
    (a string, a number, [null]), and with "Validation error" when it is
    an object, or an array, that the schema refuses; the table is left as
    it was. *)
Theorem createNote_bad_request_messages :
  forall `{SqlBinding} uuid now request st,
    method request = "POST" ->
    (truthy (input_of request) && typeof_object (input_of request) = false ->
     createNote uuid now request st
     = (formatTRPCErrorResponse "BAD_REQUEST" "Invalid request format" 400
          (has_batch request), st))
    /\ (truthy (input_of request) && typeof_object (input_of request) = true ->
        forall e,
          createNoteSchema_parse (input_of request) = Throw e ->
          createNote uuid now request st
          = (formatTRPCErrorResponse "BAD_REQUEST" "Validation error" 400
               (has_batch request), st)).
Proof.
  intros B uuid now request st Hm.
  unfold createNote, handler, createNote_try. fold (input_of request).
  rewrite Hm, String.eqb_refl. cbn [negb].
  split.
  - intros Hbad.
    destruct (truthy (input_of request)), (typeof_object (input_of request));
      try discriminate; reflexivity.
  - intros Hobj e Hp. apply andb_true_iff in Hobj as [-> ->]. cbn [negb orb].
    unfold bind, lift. rewrite Hp.
    now apply createNoteSchema_parse_throws in Hp as ->.
Qed.

Lemma createNote_bad_request_messages_witness :
  createNote (H := strict_binding) "id-1" t1 create_null []
  = (formatTRPCErrorResponse "BAD_REQUEST" "Invalid request format" 400
       (has_batch create_null), []).
Proof.
  destruct (createNote_bad_request_messages (H := strict_binding)
              "id-1" t1 create_null [] eq_refl) as [Hformat _].
  apply Hformat. reflexivity.
Defined.

(** ** More on the decoder *)

Lemma shape_payload_has_input isBatch rawData :
  exists fields v,
    shape_payload isBatch rawData = JObj fields
    /\ lookup "input" fields = Some v.
Proof.
  unfold shape_payload.
  destruct (if isBatch && truthy (Some rawData) && typeof_object (Some rawData)
            then get_prop (Some rawData) "0" else undefined) as [v|].
  - now exists [("input", v)], v.
  - destruct (truthy (Some rawData) && defined (get_prop (Some rawData) "input"))
      eqn:E.
    + apply andb_true_iff in E as [_ E].
      destruct rawData as [| | | | |items|fields];
        try (exfalso; revert E; vm_compute; discriminate).
      simpl in E. destruct (lookup "input" fields) as [v|] eqn:El;
        [|discriminate].
      now exists fields, v.
    + now exists [("input", rawData)], rawData.
Qed.

(** X13: whatever the request, the decoder returns an object with a defined
    field [input]: the handlers never read [input] off [undefined]. *)
Theorem parseInput_always_has_input :
  forall request,
    exists fields v,
      parseInput request = JObj fields
      /\ lookup "input" fields = Some v
      /\ input_of request = Some v.
Proof.
  intros request.
  assert (Hempty : exists fields v,
             empty_payload = JObj fields /\ lookup "input" fields = Some v).
  { now exists [("input", JObj [])], (JObj []). }
  assert (H : exists fields v,
             parseInput request = JObj fields
             /\ lookup "input" fields = Some v).
  { unfold parseInput, parseInput_try.
    destruct (method request =? "GET")%string.
    - destruct (input_param request) as [[|raw|]|]; simpl; try exact Hempty.
      apply shape_payload_has_input.
    - destruct (method request =? "POST")%string; [|exact Hempty].
      destruct (includes _ _); [|exact Hempty].
      destruct (body request) as [|raw|]; simpl; try exact Hempty.
      apply shape_payload_has_input. }
  destruct H as (fields & v & Hp & Hl). exists fields, v.
  repeat split; try assumption. unfold input_of. now rewrite Hp.
Qed.

(** X14: a payload may be sent bare or wrapped: when [v] has no field
    [input] and is no batch envelope, the request carrying [v] and the
    request carrying [{ input: v }] are decoded to the same input, [v]. *)
Theorem bare_and_wrapped_payloads_agree :
  forall bare wrapped v,
    decoded bare v ->
    decoded wrapped (JObj [("input", v)]) ->
    get_prop (Some v) "input" = undefined ->
    batch_envelope (has_batch bare) v = false ->
    input_of bare = Some v /\ input_of wrapped = Some v.
Proof.
  intros bare wrapped v Hb Hw Hno Hbatch. unfold input_of.
  rewrite (parseInput_decoded bare v Hb).
  rewrite (parseInput_decoded wrapped _ Hw).
  split.
  - unfold shape_payload. unfold batch_envelope in Hbatch. rewrite Hno.
    destruct (has_batch bare), (typeof_object (Some v)),
      (get_prop (Some v) "0"), (truthy (Some v));
      try discriminate; reflexivity.
  - unfold shape_payload. now destruct (has_batch wrapped).
Qed.

Lemma bare_and_wrapped_payloads_agree_witness :
  input_of create_A
  = Some (JObj [("title", JStr "A"); ("content", JStr "x")])
  /\ input_of wrapped_A
     = Some (JObj [("title", JStr "A"); ("content", JStr "x")]).
Proof.
  apply (bare_and_wrapped_payloads_agree create_A wrapped_A).
  - right. repeat split.
  - right. repeat split.
  - reflexivity.
  - reflexivity.
Defined.

(** ** More on listing *)

Lemma firstn_plus {A} (a b : nat) (l : list A) :
  firstn (a + b) l = (firstn a l ++ firstn b (skipn a l))%list.
Proof.
  revert l. induction a as [|a IH]; intros [|x l]; simpl;
    try reflexivity.
  - now rewrite firstn_nil.
  - now rewrite IH.
Qed.

Lemma slice_app {A} (lo mid hi : Z) (l : list A) :
  0 <= lo <= mid -> mid <= hi ->
  (slice lo mid l ++ slice mid hi l)%list = slice lo hi l.
Proof.
  intros Hlo Hhi. unfold slice.
  replace (Z.to_nat (hi - lo))
    with (Z.to_nat (mid - lo) + Z.to_nat (hi - mid))%nat by lia.
  rewrite firstn_plus, skipn_skipn.
  do 3 f_equal. lia.
Qed.

Lemma short_slice_is_last {A} (lo mid hi : Z) (l : list A) :
  0 <= lo <= mid ->
  Z.of_nat (List.length (slice lo mid l)) < mid - lo ->
  slice mid hi l = [].
Proof.
  intros Hlo Hshort. unfold slice in *.
  rewrite length_firstn, length_skipn in Hshort.
  rewrite skipn_all2; [now rewrite firstn_nil|]. lia.
Qed.

(** X15: pages tile the list: for a limit [L >= 1] and a page [P >= 1]
    with [(P + 1) * L] a safe integer of JavaScript, the notes of page [P]
    followed by those of page [P + 1] are the notes of the slice
    [[(P-1)*L, (P+1)*L)] of the table ordered newest first, none twice and
    none left out; and a page with fewer than [L] notes is the last, the
    next one is empty. *)
Theorem consecutive_pages_tile :
  forall `{SqlBinding} st this next L P,
    1 <= L -> 1 <= P -> (P + 1) * L <= max_safe_integer ->
    limit_of this = JNum L -> page_of this = JNum P ->
    limit_of next = JNum L -> page_of next = JNum (P + 1) ->
    exists notes1 notes2,
      getNotes this st
      = (formatTRPCResponse
           (Page (Z.of_nat (List.length notes1)) notes1) (has_batch this), st)
      /\ getNotes next st
         = (formatTRPCResponse
              (Page (Z.of_nat (List.length notes2)) notes2) (has_batch next),
            st)
      /\ (notes1 ++ notes2)%list
         = map mapSqliteRow
             (slice ((P - 1) * L) ((P + 1) * L) (order_by_createdAt_desc st))
      /\ (Z.of_nat (List.length notes1) < L -> notes2 = []).
Proof.
  intros B st this next L P HL HP Hmax Hl1 Hp1 Hl2 Hp2.
  exists (map mapSqliteRow
            (slice ((P - 1) * L) (P * L) (order_by_createdAt_desc st))),
    (map mapSqliteRow
       (slice (P * L) ((P + 1) * L) (order_by_createdAt_desc st))).
  split; [|split; [|split]].
  - rewrite (getNotes_integers this st L P Hl1 Hp1) by (try assumption; nia).
    now rewrite limit_offset_slice.
  - rewrite (getNotes_integers next st L (P + 1) Hl2 Hp2)
      by (try assumption; lia).
    rewrite limit_offset_slice by lia.
    now replace (P + 1 - 1) with P by lia.
  - rewrite <- map_app. f_equal. apply slice_app; nia.
  - rewrite length_map. intros Hshort.
    rewrite (short_slice_is_last ((P - 1) * L) (P * L)); [reflexivity|nia|].
    lia.
Qed.

Lemma consecutive_pages_tile_witness :
  exists notes1 notes2,
    getNotes (H := strict_binding) first_page_of_one [row_A; row_B]
    = (formatTRPCResponse
         (Page (Z.of_nat (List.length notes1)) notes1)
         (has_batch first_page_of_one), [row_A; row_B])
    /\ getNotes (H := strict_binding) second_page_of_one [row_A; row_B]
       = (formatTRPCResponse
            (Page (Z.of_nat (List.length notes2)) notes2)
            (has_batch second_page_of_one), [row_A; row_B])
    /\ (notes1 ++ notes2)%list
       = map mapSqliteRow
           (slice ((1 - 1) * 1) ((1 + 1) * 1)
              (order_by_createdAt_desc [row_A; row_B]))
    /\ (Z.of_nat (List.length notes1) < 1 -> notes2 = []).
Proof.
  apply (consecutive_pages_tile (H := strict_binding) [row_A; row_B]
           first_page_of_one second_page_of_one 1 1);
    try reflexivity; unfold max_safe_integer; lia.
Defined.

(** X16: for a limit [L >= 1] and a page [P >= 1] with [P * L] a safe
    integer of JavaScript: a page past the end is empty, with [results] 0;
    and the first page under a limit no smaller than the table holds every
    note once, newest first. *)
Theorem pages_at_the_ends :
  forall `{SqlBinding} st request L P,
    1 <= L -> 1 <= P -> P * L <= max_safe_integer ->
    limit_of request = JNum L -> page_of request = JNum P ->
    (Z.of_nat (List.length st) <= (P - 1) * L ->
     getNotes request st
     = (formatTRPCResponse (Page 0 []) (has_batch request), st))
    /\ (P = 1 -> Z.of_nat (List.length st) <= L ->
        exists notes,
          getNotes request st
          = (formatTRPCResponse (Page (Z.of_nat (List.length st)) notes)
               (has_batch request), st)
          /\ Permutation notes (map mapSqliteRow st)
          /\ StronglySorted newer_note notes).
Proof.
  intros B st request L P HL HP Hmax Hl Hp.
  rewrite (getNotes_integers request st L P Hl Hp HL HP Hmax).
  rewrite limit_offset_slice by assumption.
  pose proof (Permutation_length (order_by_createdAt_desc_perm st)) as Hlen.
  split.
  - intros Hpast. unfold slice.
    rewrite skipn_all2 by lia. now rewrite firstn_nil.
  - intros -> Hall. exists (map mapSqliteRow (order_by_createdAt_desc st)).
    unfold slice. change (Z.to_nat ((1 - 1) * L)) with 0%nat.
    rewrite skipn_O, firstn_all2 by lia.
    split; [|split].
    + cbv zeta. now rewrite length_map, Hlen.
    + apply Permutation_map, order_by_createdAt_desc_perm.
    + apply notes_sorted, order_by_createdAt_desc_sorted.
Qed.

Lemma pages_at_the_ends_witness :
  getNotes (H := strict_binding) third_page_of_one [row_A; row_B]
  = (formatTRPCResponse (Page 0 []) (has_batch third_page_of_one),
     [row_A; row_B]).
Proof.
  assert (H1 : 1 <= 1) by lia. assert (H3 : 1 <= 3) by lia.
  assert (Hmax : 3 * 1 <= max_safe_integer)
    by (unfold max_safe_integer; lia).
  destruct (pages_at_the_ends (H := strict_binding) [row_A; row_B]
              third_page_of_one 1 3 H1 H3 Hmax eq_refl eq_refl) as [Hpast _].
  apply Hpast. simpl. lia.
Defined.

Lemma string_ltb_not_leb s1 s2 :
  String.ltb s1 s2 = true -> String.leb s2 s1 = false.
Proof.
  unfold String.ltb, String.leb. rewrite (String.compare_antisym s2 s1).
  now destruct (String.compare s1 s2).
Qed.

Lemma order_snoc_newest x st :
  (forall r, In r st -> String.ltb (createdAt r) (createdAt x) = true) ->
  order_by_createdAt_desc (st ++ [x]) = x :: order_by_createdAt_desc st.
Proof.
  induction st as [|a st IH]; intros Hnew; [reflexivity|].
  simpl. rewrite IH by (intros r Hr; apply Hnew; now right).
  simpl. now rewrite (string_ltb_not_leb _ _ (Hnew a (or_introl eq_refl))).
Qed.

(** X17: the newest note comes first: when [createNote] answers a note at
    a time later than the [createdAt] of every row, the first page of
    [getNotes] on the table it leaves, under a limit from 1 to the largest
    safe integer of JavaScript, starts with that note. *)
Theorem created_note_is_listed_first :
  forall `{SqlBinding} uuid now request st note b st' listRequest L,
    createNote uuid now request st
    = (formatTRPCResponse (Created note) b, st') ->
    (forall r, In r st -> String.ltb (createdAt r) now = true) ->
    limit_of listRequest = JNum L -> page_of listRequest = JNum 1 ->
    1 <= L <= max_safe_integer ->
    exists rest,
      getNotes listRequest st'
      = (formatTRPCResponse
           (Page (Z.of_nat (S (List.length rest))) (note :: rest))
           (has_batch listRequest), st').
Proof.
  intros B uuid now request st note b st' listRequest L Hc Hnew Hl Hp HL.
  destruct (createNote_cases uuid now request st)
    as [(code & msg & status & E)|(input & _ & _ & _ & _ & E)];
    rewrite E in Hc; [discriminate|].
  injection Hc as _ <- <-.
  rewrite (getNotes_integers listRequest _ L 1 Hl Hp) by lia.
  change ((1 - 1) * L) with 0.
  rewrite limit_offset_first_page by lia.
  rewrite order_snoc_newest by exact Hnew.
  destruct (Z.to_nat L) as [|n] eqn:En; [lia|].
  exists (map mapSqliteRow (firstn n (order_by_createdAt_desc st))).
  cbv zeta. cbn [firstn map List.length]. reflexivity.
Qed.

Lemma created_note_is_listed_first_witness :
  exists rest,
    getNotes (H := strict_binding) first_page_of_one
      ([row_A] ++ [new_row "id-2" t2 (mkCreateInput "B" "z" None None)])%list
    = (formatTRPCResponse
         (Page (Z.of_nat (S (List.length rest)))
            (mapSqliteRow (new_row "id-2" t2 (mkCreateInput "B" "z" None None))
               :: rest))
         (has_batch first_page_of_one),
       ([row_A] ++ [new_row "id-2" t2 (mkCreateInput "B" "z" None None)])%list).
Proof.
  apply (created_note_is_listed_first (H := strict_binding) "id-2" t2
           create_B_again [row_A] _ false _ first_page_of_one 1).
  - reflexivity.
  - intros r [<-|[]]. reflexivity.
  - reflexivity.
  - reflexivity.
  - unfold max_safe_integer. lia.
Defined.

(** ** The worker in front of the object *)

Section Worker.
Context `{SqlBinding}.

Lemma fetch_unknown_path uuid now request st :
  method request <> "OPTIONS" ->
  ~ In (pathname request) operation_paths ->
  fetch uuid now request st = (NotFound, st).
Proof.
  intros Hm Hp. unfold fetch.
  destruct (String.eqb_spec (method request) "OPTIONS"); [contradiction|].
  lazy zeta.
  repeat match goal with
         | |- context [String.eqb (pathname request) ?p] =>
             destruct (String.eqb_spec (pathname request) p) as [E|_];
             [exfalso; apply Hp; rewrite E; simpl; tauto|]
         end.
  reflexivity.
Qed.

Lemma fetch_reads uuid now request st :
  method request <> "POST" \/ ~ In (pathname request) write_paths ->
  snd (fetch uuid now request st) = st.
Proof.
  intros Hread. unfold fetch.
  destruct (method request =? "OPTIONS")%string; [reflexivity|]. lazy zeta.
  assert (Hpost : forall p, pathname request = p -> In p write_paths ->
                            method request <> "POST").
  { intros p E Hp. destruct Hread as [Hm|Hn]; [exact Hm|].
    destruct Hn. now rewrite E. }
  destruct (String.eqb_spec (pathname request) "/api/trpc/createNote") as [E|_].
  { rewrite createNote_wrong_method; [reflexivity|].
    apply (Hpost _ E). simpl. tauto. }
  destruct (String.eqb_spec (pathname request) "/api/trpc/updateNote") as [E|_].
  { rewrite updateNote_wrong_method; [reflexivity|].
    apply (Hpost _ E). simpl. tauto. }
  destruct (String.eqb_spec (pathname request) "/api/trpc/deleteNote") as [E|_].
  { rewrite deleteNote_wrong_method; [reflexivity|].
    apply (Hpost _ E). simpl. tauto. }
  destruct (pathname request =? "/api/trpc/getNote")%string;
    [apply getNote_reads|].
  destruct (pathname request =? "/api/trpc/getNotes")%string;
    [apply getNotes_reads|].
  now destruct (pathname request =? "/api/trpc/getHello")%string.
Qed.

Lemma operation_paths_under_trpc p :
  In p operation_paths ->
  (p =? "/")%string = false /\ startsWith p "/api" = true
  /\ startsWith p "/api/trpc" = true.
Proof.
  unfold operation_paths. simpl.
  intros [<-|[<-|[<-|[<-|[<-|[<-|[]]]]]]]; repeat split.
Qed.

Lemma under_api_is_not_root p :
  startsWith p "/api" = true -> (p =? "/")%string = false.
Proof.
  intros Hs. destruct (String.eqb_spec p "/") as [->|_]; [|reflexivity].
  discriminate Hs.
Qed.

End Worker.

(** X18: reading is safe: a request changes the table only if it is a POST
    to one of [createNote], [updateNote] and [deleteNote]; any other
    request, through the worker or straight to the object, leaves the
    table as it was. *)
Theorem only_posts_to_writers_change_the_table :
  forall `{SqlBinding} uuid now request st,
    method request <> "POST" \/ ~ In (pathname request) write_paths ->
    snd (fetch uuid now request st) = st
    /\ snd (worker_fetch uuid now request st) = st.
Proof.
  intros B uuid now request st Hread.
  pose proof (fetch_reads uuid now request st Hread) as Hf.
  split; [exact Hf|]. unfold worker_fetch.
  destruct (method request =? "OPTIONS")%string; [reflexivity|]. lazy zeta.
  destruct ((pathname request =? "/")%string
            || negb (startsWith (pathname request) "/api")); [reflexivity|].
  destruct (startsWith (pathname request) "/api/trpc"); [|reflexivity].
  now destruct (fetch uuid now request st).
Qed.

Lemma only_posts_to_writers_change_the_table_witness :
  snd (fetch (H := strict_binding) "id-3" t3
         (mkRequest "GET" "/api/trpc/deleteNote" false
            (Some (Encoded (JObj [("noteId", JStr "id-1")]))) None Empty)
         [row_A; row_B])
  = [row_A; row_B]
  /\ snd (worker_fetch (H := strict_binding) "id-3" t3
            (mkRequest "GET" "/api/trpc/deleteNote" false
               (Some (Encoded (JObj [("noteId", JStr "id-1")]))) None Empty)
            [row_A; row_B])
     = [row_A; row_B].
Proof.
  apply (only_posts_to_writers_change_the_table (H := strict_binding)).
  left. discriminate.
Defined.

(** X19: the worker answers the preflight to OPTIONS itself; otherwise it
    hands the root and every path outside [/api] to the assets, hands the
    six operation paths to the object and passes its answer on, and
    answers every other path under [/api] with the plain 404, its own or
    the object's, without a change of the table. *)
Theorem worker_routes :
  forall `{SqlBinding} uuid now request st,
    (method request = "OPTIONS" ->
     worker_fetch uuid now request st = (Answer Preflight, st))
    /\ (method request <> "OPTIONS" ->
        (pathname request = "/"
         \/ startsWith (pathname request) "/api" = false ->
         worker_fetch uuid now request st = (Asset, st))
        /\ (In (pathname request) operation_paths ->
            worker_fetch uuid now request st
            = (Answer (fst (fetch uuid now request st)),
               snd (fetch uuid now request st)))
        /\ (startsWith (pathname request) "/api" = true ->
            ~ In (pathname request) operation_paths ->
            worker_fetch uuid now request st = (Answer NotFound, st))).
Proof.
  intros B uuid now request st. unfold worker_fetch. split.
  - intros ->. reflexivity.
  - intros Hm.
    destruct (String.eqb_spec (method request) "OPTIONS"); [contradiction|].
    lazy zeta. split; [|split].
    + intros [-> | ->]; [reflexivity|]. now rewrite orb_true_r.
    + intros Hop.
      destruct (operation_paths_under_trpc _ Hop) as (-> & -> & ->).
      simpl. now destruct (fetch uuid now request st).
    + intros Hapi Hnop.
      rewrite (under_api_is_not_root _ Hapi), Hapi. simpl.
      destruct (startsWith (pathname request) "/api/trpc"); [|reflexivity].
      now rewrite (fetch_unknown_path uuid now request st Hm Hnop).
Qed.

Lemma worker_routes_witness :
  worker_fetch (H := strict_binding) "id-1" t1 create_A []
  = (Answer (fst (fetch (H := strict_binding) "id-1" t1 create_A [])),
     snd (fetch (H := strict_binding) "id-1" t1 create_A [])).
Proof.
  destruct (worker_routes (H := strict_binding) "id-1" t1 create_A [])
    as [_ Hother].
  destruct Hother as (_ & Hop & _); [discriminate|].
  apply Hop. simpl. tauto.
Defined.

(** ** More on updating *)

Lemma updateNote_rewrites `{SqlBinding} now request st :
  snd (updateNote now request st) = st
  \/ exists k u, snd (updateNote now request st) = map (set_where k u now) st.
Proof.
  set (P := fun p : Response * Store =>
              snd p = st \/ exists k u, snd p = map (set_where k u now) st).
  change (P (updateNote now request st)).
  assert (Hsame : forall r, P (r, st)) by (intros r; now left).
  destruct (String.eqb_spec (method request) "POST") as [Hm|Hm];
    [|now rewrite updateNote_wrong_method].
  destruct (truthy (params_noteId_of request)) eqn:Ht;
    [|now rewrite updateNote_missing].
  destruct (params_noteId_of request) as [nid|] eqn:Hn; [|discriminate].
  unfold updateNote, handler.
  rewrite (updateNote_try_decoded now request nid st Hm Hn Ht).
  unfold bind at 1, lift.
  destruct (updateNoteSchema_parse _) as [u|e]; [|apply Hsame].
  unfold bind at 1. rewrite sql_select_by_id_eq.
  destruct (key_of nid) as [k|] eqn:Hk; [|apply Hsame].
  destruct (List.length (filter (has_id k) st) =? 0)%nat; [apply Hsame|].
  unfold bind at 1.
  match goal with
  | |- context [match ?check st with _ => _ end] =>
      destruct (check st) as [[taken|e] st1] eqn:Hc
  end;
    apply update_check_reads in Hc; subst st1; [|apply Hsame].
  destruct taken; [apply Hsame|].
  unfold bind at 1.
  destruct (sql_update u now nid st) as [[[]|e] st1] eqn:Hu.
  - apply sql_update_inv in Hu as (k' & _ & ->).
    unfold bind at 1. rewrite sql_select_by_id_eq, Hk.
    unfold bind, one, P.
    destruct (filter (has_id k) _) as [|r [|r' rows]]; simpl;
      right; now exists k', u.
  - apply sql_update_throw in Hu as [-> _]. apply Hsame.
Qed.

(** X20: [updateNote] neither adds nor removes a note and never touches an
    [id] or a [createdAt]: whatever the request and the answer, the table
    after it has the ids and the creation times of the table before it,
    row for row. *)
Theorem updateNote_keeps_the_notes :
  forall `{SqlBinding} now request st,
    map id (snd (updateNote now request st)) = map id st
    /\ map createdAt (snd (updateNote now request st)) = map createdAt st
    /\ List.length (snd (updateNote now request st)) = List.length st.
Proof.
  intros B now request st.
  destruct (updateNote_rewrites now request st) as [->|(k & u & ->)];
    [auto|].
  split; [apply map_set_where_id|]. split; [|apply length_map].
  rewrite map_map. apply map_ext. intros r. apply set_where_createdAt.
Qed.

(** X21: the note an update answers shows the category of the payload
    unless that is the empty text, which it shows as no category, although
    the row keeps the empty text. *)
Theorem empty_category_reads_as_none :
  forall `{SqlBinding} now request st note b st' c,
    store_ok st ->
    updateNote now request st = (formatTRPCResponse (Single note) b, st') ->
    get_prop (Some (updateData_of request)) "category" = Some (JStr c) ->
    note_category note = (if (c =? "")%string then None else Some c)
    /\ exists row, In row st' /\ id row = note_id note
                   /\ category row = Some c.
Proof.
  intros B now request st note b st' c Hok Hup Hc.
  destruct (updateNote_success now request st note b st' Hok Hup)
    as (nid & u & old & _ & _ & Hp & Hin & _ & _ & -> & ->).
  destruct (updateNoteSchema_parse_fields _ _ Hp) as (_ & _ & Hg & _).
  rewrite Hc in Hg. destruct (ui_category u) as [c'|] eqn:Eg; [|discriminate].
  injection Hg as <-.
  split; [simpl; now rewrite Eg|].
  exists (set_fields u now old). repeat split.
  - apply in_map_iff. exists old. split; [|exact Hin].
    unfold set_where, has_id. now rewrite String.eqb_refl.
  - simpl. now rewrite Eg.
Qed.

Lemma empty_category_reads_as_none_witness :
  note_category (mkNote "id-2" "B" "y" None true t2 t3)
  = (if ("" =? "")%string then None else Some "")
  /\ exists row, In row [row_A; mkRow "id-2" "B" "y" (Some "") 1 t2 t3]
                 /\ id row = note_id (mkNote "id-2" "B" "y" None true t2 t3)
                 /\ category row = Some "".
Proof.
  apply (empty_category_reads_as_none (H := strict_binding) t3
           (update_of "id-2" (JObj [("category", JStr "")]))
           [row_A; row_B] (mkNote "id-2" "B" "y" None true t2 t3) false
           [row_A; mkRow "id-2" "B" "y" (Some "") 1 t2 t3] "").
  - exact store_AB_ok.
  - reflexivity.
  - reflexivity.
Defined.

(** ** The title test *)

(** X22: [titleExists] tells the truth and reads only: it returns [true]
    exactly when a row has the title, and leaves the table as it was; so
    right after a [createNote] that answered a note, it holds of that
    note's title. *)
Theorem titleExists_is_exact :
  forall `{SqlBinding} t st,
    (exists b, titleExists t st = (Ok b, st)
               /\ (b = true <-> exists r, In r st /\ title r = t))
    /\ (forall uuid now request note b st',
           createNote uuid now request st
           = (formatTRPCResponse (Created note) b, st') ->
           titleExists (note_title note) st' = (Ok true, st')).
Proof.
  intros B t st. split.
  - exists (existsb (has_title t) st). split; [apply titleExists_eq|].
    rewrite existsb_exists. unfold has_title.
    split; intros (r & Hr & E); exists r; split; auto;
      now apply String.eqb_eq.
  - intros uuid now request note b st' Hc.
    destruct (createNote_cases uuid now request st)
      as [(code & msg & status & E)|(input & _ & _ & _ & _ & E)];
      rewrite E in Hc; [discriminate|].
    injection Hc as _ <- <-. rewrite titleExists_eq. do 2 f_equal.
    apply existsb_has_title. rewrite map_app. apply in_or_app. right.
    now left.
Qed.

Lemma titleExists_is_exact_witness :
  titleExists (note_title (mapSqliteRow row_A)) [row_A] = (Ok true, [row_A]).
Proof.
  destruct (titleExists_is_exact (H := strict_binding) "A" [])
    as [_ Hafter].
  apply (Hafter "id-1" t1 create_A (mapSqliteRow row_A) false [row_A]).
  reflexivity.
Defined.
